(** * Daily portfolio maintenance: a shallow embedding of
    [scripts/daily-portfolio-maintenance.js] and the properties of its
    rotation cursor, statistics summary, lifecycle manager and health
    report. *)

From Stdlib Require Import ZArith Lia List Permutation Sorted.
From Stdlib Require Import Ascii String DecimalString.
From stdpp Require Import gmap strings list fin_maps.

Local Open Scope Z_scope.
Local Open Scope string_scope.
Local Open Scope list_scope.

(* ===================================================================== *)
(** * Section 1 of the script: daily fact rotation *)
(* ===================================================================== *)

Module Rotation.

Inductive category := LIFE | PEOPLE | TECH.

Definition ROTATION_CYCLE : list category := [LIFE; PEOPLE; TECH].

Definition category_name (c : category) : string :=
  match c with LIFE => "LIFE" | PEOPLE => "PEOPLE" | TECH => "TECH" end.

(** A JavaScript number as it occurs in [state.currentIndex]: an integer
    held exactly by a double, or NaN. *)
Inductive number := Int (z : Z) | NaN.

(** The own property [currentIndex] of a parsed document.  Numbers are the
    integers [z] with [|z| < 2^53], on which [+ 1] and [% 3] are exact;
    larger numbers (which a double rounds), fractions, text, arrays and
    objects stored under the key are not represented. *)
Inductive index_field :=
| FMissing                 (* no such property: reads as undefined *)
| FNull
| FBool (b : bool)
| FNum (z : Z).

(** A JSON object, as far as the script reads and writes it. *)
Record document := Document {
  doc_currentIndex : index_field;
  doc_lastUpdated : option string;
  doc_currentCategory : option string
}.

(** What [JSON.parse] makes of the text of the state file. *)
Inductive parsed :=
| JNull                    (* the text null *)
| JObject (d : document)
| JPrimitive.              (* a number, string, boolean or array *)

Inductive file :=
| Garbled                  (* text that JSON.parse rejects *)
| Json (p : parsed).

(** [../data] and, inside it, [fact-rotation-state.json]. *)
Inductive filesystem :=
| NoDir
| Dir (statsFile : option file).

Inductive fs_op :=
| MkdirSync
| WriteFileSync (f : file).

(** The object the function returns. *)
Record state := State {
  currentIndex : number;
  lastUpdated : string;
  currentCategory : option category   (* None: undefined *)
}.

(** ** Expression-level pieces *)

(** [existing.currentIndex]; reading a property of null throws. *)
Definition get_currentIndex (existing : parsed) : option index_field :=
  match existing with
  | JNull => None
  | JObject d => Some (doc_currentIndex d)
  | JPrimitive => Some FMissing
  end.

(** [v + 1] for the operands above (ToNumber, then addition). *)
Definition plus_one (v : index_field) : number :=
  match v with
  | FMissing => NaN
  | FNull => Int 1
  | FBool b => Int (if b then 2 else 1)
  | FNum z => Int (z + 1)
  end.

(** [n % ROTATION_CYCLE.length]: the remainder takes the sign of the
    dividend. *)
Definition modulo_cycle (n : number) : number :=
  match n with
  | Int z => Int (Z.rem z (Z.of_nat (length ROTATION_CYCLE)))
  | NaN => NaN
  end.

(** [ROTATION_CYCLE[n]]: undefined off the array. *)
Definition cycle_at (n : number) : option category :=
  match n with
  | Int z => if (0 <=? z)%Z then nth_error ROTATION_CYCLE (Z.to_nat z) else None
  | NaN => None
  end.

(** [JSON.stringify(state, null, 2)], read back: NaN is written as null
    and an undefined property is left out. *)
Definition stringify (s : state) : file :=
  Json (JObject {|
    doc_currentIndex :=
      match currentIndex s with Int z => FNum z | NaN => FNull end;
    doc_lastUpdated := Some (lastUpdated s);
    doc_currentCategory := category_name <$> currentCategory s |}).

(** The body of the [if (fs.existsSync(statsFile))] block: the index the
    state carries after it.  Both a rejected parse and a property read on
    null land in the catch clause, which leaves the initial 0. *)
Definition read_index (statsFile : option file) : number :=
  match statsFile with
  | None => Int 0
  | Some Garbled => Int 0
  | Some (Json existing) =>
      match get_currentIndex existing with
      | None => Int 0
      | Some v => modulo_cycle (plus_one v)
      end
  end.

(** ** rotateFactCategory

    [now] is the value of [new Date().toISOString()] at line 67.  The
    result is the returned state, the file system afterwards and the
    file-system writes performed, in order. *)
Definition rotateFactCategory (now : string) (disk : filesystem)
  : state * filesystem * list fs_op :=
  let '(statsFile, mk) :=
    match disk with
    | NoDir => (None, [MkdirSync])
    | Dir f => (f, [])
    end in
  let idx := read_index statsFile in
  let s := {| currentIndex := idx;
              lastUpdated := now;
              currentCategory := cycle_at idx |} in
  (s, Dir (Some (stringify s)), mk ++ [WriteFileSync (stringify s)]).

(** Consecutive invocations; [clock k] is the time of invocation [k].
    Returns the state of the last invocation and the disk after it. *)
Fixpoint invocations (clock : nat -> string) (n : nat) (disk : filesystem)
  : option state * filesystem :=
  match n with
  | O => (None, disk)
  | S k =>
      let '(_, disk') := invocations clock k disk in
      let '(s, disk'', _) := rotateFactCategory (clock k) disk' in
      (Some s, disk'')
  end.

(** The persisted cursor of a disk, when it holds one. *)
Definition persisted_index (disk : filesystem) : option index_field :=
  match disk with
  | Dir (Some (Json (JObject d))) => Some (doc_currentIndex d)
  | _ => None
  end.

Definition writes (log : list fs_op) : list file :=
  omap (fun op => match op with WriteFileSync f => Some f | _ => None end) log.

(** An index into the three-element cycle. *)
Definition valid_index (i : Z) : Prop := (0 <= i < 3)%Z.

(** The state file is missing (with or without its directory) or holds
    text that is no JSON. *)
Definition missing_or_corrupt (disk : filesystem) : bool :=
  match disk with
  | NoDir | Dir None | Dir (Some Garbled) => true
  | Dir (Some (Json _)) => false
  end.

(** The state the function starts from and falls back to. *)
Definition fresh (now : string) : state :=
  {| currentIndex := Int 0; lastUpdated := now; currentCategory := Some LIFE |}.

End Rotation.

(* ===================================================================== *)
(** * The injected REST client *)
(* ===================================================================== *)

Module GitHub.

(** One entry of the repository listing, with the fields the script reads.
    [None] stands for JSON null. *)
Record repo := Repo {
  r_name : string;
  r_html_url : string;
  r_description : option string;
  r_language : option string;
  r_stargazers_count : Z;
  r_forks_count : Z;
  r_open_issues_count : Z;
  r_topics : option (list string);
  r_fork : bool;
  r_private : bool;
  r_archived : bool;
  r_size : Z;
  r_watchers_count : Z;
  r_updated_at : string;
  r_created_at : string;
  r_pushed_at : string;
  r_visibility : string;
  r_default_branch : string
}.

(** The argument of [octokit.rest.repos.listForUser]. *)
Record list_request := ListRequest {
  username : string;
  type : string;
  sort : string;
  direction : string;
  per_page : Z;
  page : nat
}.

(** One open issue of the issue listing.  [updated_at] is the instant
    [new Date(issue.updated_at)] denotes, in milliseconds since the epoch,
    and [None] when the text is no date (the Date is then invalid and
    compares false).  [pull_request] tells whether the key is present. *)
Record issue := Issue {
  number : Z;
  title : string;
  body : option string;
  updated_at : option Z;
  pull_request : bool
}.

(** The calls that change the remote side. *)
Inductive call :=
| createComment (owner repo : string) (issue_number : Z) (body : string)
| update (owner repo : string) (issue_number : Z) (state state_reason : string)
| addLabels (owner repo : string) (issue_number : Z) (labels : list string).

(** The client, as the script sees it: what each awaited call resolves to.
    [None] is a rejected promise; for the mutating calls [Some msg] is the
    message of the error they reject with. *)
Record octokit := Octokit {
  listForUser : list_request -> option (list repo);
  (** The weekly totals of [getCommitActivityData]; [None] also covers a
      payload that is no array, on which [reduce] throws. *)
  getCommitActivityData : string -> string -> option (list Z);
  (** [issues.listForRepo] for a repository and a page size. *)
  listForRepo : string -> string -> Z -> string + list issue;
  rejects : call -> option string
}.

End GitHub.

(* ===================================================================== *)
(** * Section 2 of the script: repository statistics *)
(* ===================================================================== *)

Module Stats.
Import GitHub.

(** [total_commits] and [recent_activity]: a sum, or the text 'N/A'. *)
Inductive activity := Commits (z : Z) | NA.

Record stat := Stat {
  name : string;
  url : string;
  description : string;
  language : string;
  stars : Z;
  forks : Z;
  open_issues : Z;
  topics : list string;
  is_fork : bool;
  is_private : bool;
  is_archived : bool;
  size_kb : Z;
  watchers : Z;
  last_updated : string;
  created_at : string;
  pushed_at : string;
  visibility : string;
  default_branch : string;
  total_commits : activity;
  recent_activity : activity
}.

(** Truthiness of a string: only the empty one is falsy. *)
Definition truthy (s : string) : bool :=
  match s with EmptyString => false | String _ _ => true end.

(** [o || d] for a nullable string [o]. *)
Definition or_default (o : option string) (d : string) : string :=
  match o with
  | Some s => if truthy s then s else d
  | None => d
  end.

(** ** The pagination loop (lines 107-125)

    [fuel] bounds the number of iterations of [while (true)]; [None] means
    the loop is still running when it is used up.  A finished loop gives
    the requests it sent, in order, and either the accumulated [repos] or
    [inr tt] when a request was rejected. *)
Definition request (owner : string) (page : nat) : list_request :=
  {| username := owner; type := "public"; sort := "updated";
     direction := "desc"; per_page := 100; page := page |}.

Fixpoint paginate (o : octokit) (owner : string) (fuel : nat) (page : nat)
    (repos : list repo) (sent : list list_request)
  : option (list list_request * (list repo + unit)) :=
  match fuel with
  | O => None
  | S fuel' =>
      let req := request owner page in
      match listForUser o req with
      | None => Some (sent ++ [req], inr tt)
      | Some data =>
          if (length data =? 0)%nat
          then Some (sent ++ [req], inl repos)
          else paginate o owner fuel' (S page) (repos ++ data) (sent ++ [req])
      end
  end.

(** The data of page [p] of the listing; a rejected request has none. *)
Definition page_data (o : octokit) (owner : string) (p : nat) : list repo :=
  default [] (listForUser o (request owner p)).

(** The [repos.map] of lines 127-146; the activity fields are not set yet
    and are given when the record is enriched. *)
Definition to_stat (r : repo) (total recent : activity) : stat :=
  {| name := r_name r;
     url := r_html_url r;
     description := or_default (r_description r) "N/A";
     language := or_default (r_language r) "Unknown";
     stars := r_stargazers_count r;
     forks := r_forks_count r;
     open_issues := r_open_issues_count r;
     topics := default [] (r_topics r);
     is_fork := r_fork r;
     is_private := r_private r;
     is_archived := r_archived r;
     size_kb := r_size r;
     watchers := r_watchers_count r;
     last_updated := r_updated_at r;
     created_at := r_created_at r;
     pushed_at := r_pushed_at r;
     visibility := r_visibility r;
     default_branch := r_default_branch r;
     total_commits := total;
     recent_activity := recent |}.

(** [data.reduce((sum, week) => sum + week.total, 0)] *)
Definition sum_totals (weeks : list Z) : Z := fold_left Z.add weeks 0.

(** [data.slice(-4)] *)
Definition last_four (weeks : list Z) : list Z :=
  drop (length weeks - 4) weeks.

(** The body of the [stats.map(async ...)] of lines 149-164. *)
Definition enrich (o : octokit) (owner : string) (r : repo) : stat :=
  match getCommitActivityData o owner (r_name r) with
  | Some weeks => to_stat r (Commits (sum_totals weeks))
                          (Commits (sum_totals (last_four weeks)))
  | None => to_stat r NA NA
  end.

(** fetchRepositoryStats: [None] only when the fuel runs out. *)
Definition fetchRepositoryStats (o : octokit) (owner : string) (fuel : nat)
  : option (list stat) :=
  match paginate o owner fuel 1 [] [] with
  | None => None
  | Some (_, inr _) => Some []
  | Some (_, inl repos) => Some (map (enrich o owner) repos)
  end.

(** ** Array.prototype.sort

    The comparator's number is used through its sign only, and NaN counts
    as zero. *)
Inductive order := Before | Same | After.

Definition same {A} (cmp : A -> A -> order) (a b : A) : bool :=
  match cmp a b with Same => true | _ => false end.

(** The language's notion of a consistent comparator for the values of an
    array: [cmp] is reflexive, symmetric and transitive where it answers
    [Same], and transitive where it answers [Before] or [After]. *)
Record consistent {A} (cmp : A -> A -> order) (l : list A) : Prop := {
  same_refl : forall a, In a l -> cmp a a = Same;
  same_sym : forall a b, In a l -> In b l -> cmp a b = Same -> cmp b a = Same;
  same_trans : forall a b c, In a l -> In b l -> In c l ->
    cmp a b = Same -> cmp b c = Same -> cmp a c = Same;
  before_trans : forall a b c, In a l -> In b l -> In c l ->
    cmp a b = Before -> cmp b c = Before -> cmp a c = Before;
  after_trans : forall a b c, In a l -> In b l -> In c l ->
    cmp a b = After -> cmp b c = After -> cmp a c = After
}.

(** [l'] is [l] sorted by [cmp], elements that compare [Same] keeping the
    order they have in [l]. *)
Definition stably_sorted {A} (cmp : A -> A -> order) (l l' : list A) : Prop :=
  StronglySorted (fun a b => cmp a b <> After) l' /\
  forall c, In c l -> List.filter (same cmp c) l' = List.filter (same cmp c) l.

(** What the language promises of every engine: the array is permuted,
    and it is stably sorted when the comparator is consistent for its
    values.  With any other comparator the order is left to the engine. *)
Class SortEngine := {
  Array_sort : forall {A}, (A -> A -> order) -> list A -> list A;
  Array_sort_permutes : forall A (cmp : A -> A -> order) l,
    Permutation l (Array_sort cmp l);
  Array_sort_consistent : forall A (cmp : A -> A -> order) l,
    consistent cmp l -> stably_sorted cmp l (Array_sort cmp l)
}.

(** A reference engine: straight insertion from the right. *)
Fixpoint insert {A} (cmp : A -> A -> order) (x : A) (l : list A) : list A :=
  match l with
  | [] => [x]
  | y :: l' =>
      match cmp x y with
      | After => y :: insert cmp x l'
      | _ => x :: l
      end
  end.

Fixpoint insertion_sort {A} (cmp : A -> A -> order) (l : list A) : list A :=
  match l with
  | [] => []
  | x :: l' => insert cmp x (insertion_sort cmp l')
  end.

(** ** saveRepositoryStats (lines 173-205) *)

Inductive number := Int (z : Z) | NaN.

(** [v || 0] on an activity: only the number zero is falsy, and it gives
    zero again; the text 'N/A' is truthy and stays. *)
Definition or_zero (v : activity) : activity :=
  match v with
  | Commits z => if (z =? 0)%Z then Commits 0 else Commits z
  | NA => NA
  end.

(** [x - y]: the text 'N/A' converts to NaN. *)
Definition minus (x y : activity) : number :=
  match x, y with
  | Commits a, Commits b => Int (a - b)
  | _, _ => NaN
  end.

Definition sign (n : number) : order :=
  match n with
  | Int z => if (z <? 0)%Z then Before else if (0 <? z)%Z then After else Same
  | NaN => Same
  end.

(** [(a, b) => (b.recent_activity || 0) - (a.recent_activity || 0)] *)
Definition by_recent_activity (a b : stat) : order :=
  sign (minus (or_zero (recent_activity b)) (or_zero (recent_activity a))).

(** A value stored in [summary.by_language]. *)
Inductive tally :=
| Number (n : nat)
| Text.   (* a string, left by [+ 1] on a function or on a string *)

(** The properties an object literal inherits from [Object.prototype];
    each reads as a function, [__proto__] as the prototype object. *)
Definition Object_prototype : list string :=
  [ "constructor"; "__defineGetter__"; "__defineSetter__"; "hasOwnProperty";
    "__lookupGetter__"; "__lookupSetter__"; "isPrototypeOf";
    "propertyIsEnumerable"; "toString"; "valueOf"; "__proto__";
    "toLocaleString" ].

(** [by_language[k] = (by_language[k] || 0) + 1].  An own count is at
    least 1, hence truthy.  An inherited member is truthy as well and
    [+ 1] turns it into text; assigning text to [__proto__] has no
    effect. *)
Definition count_language (by_language : gmap string tally) (k : string)
  : gmap string tally :=
  match by_language !! k with
  | Some (Number n) => <[k := Number (n + 1)]> by_language
  | Some Text => <[k := Text]> by_language
  | None =>
      if bool_decide (k ∈ Object_prototype)
      then (if bool_decide (k = "__proto__") then by_language
            else <[k := Text]> by_language)
      else <[k := Number 1]> by_language
  end.

(** The [stats.forEach] of lines 196-200. *)
Definition tally_languages (stats : list stat) : gmap string tally :=
  fold_left
    (fun by_language repo =>
       if truthy (language repo)
       then count_language by_language (language repo)
       else by_language)
    stats ∅.

(** Arrays live in a store and are passed by reference. *)
Definition ref := positive.

Record summary := Summary {
  timestamp : string;
  total_repos : nat;
  active_repos : nat;
  total_stars : Z;
  total_forks : Z;
  by_language : gmap string tally;
  most_active : list (string * activity);   (* { name, activity } *)
  repositories : ref
}.

(** [now] is [new Date().toISOString()].  The function returns the summary
    and the store after the call; [None] only for a dangling reference,
    which no caller can hold.  The properties of the object literal are
    evaluated in order, so the counts are taken before the array is
    sorted and the language tally after. *)
Definition saveRepositoryStats `{SortEngine} (now : string)
    (stats : ref) (store : gmap ref (list stat))
  : option (summary * gmap ref (list stat)) :=
  match store !! stats with
  | None => None
  | Some l =>
      let sorted := Array_sort by_recent_activity l in
      Some ({| timestamp := now;
               total_repos := length l;
               active_repos := length (List.filter (fun r => negb (is_archived r)) l);
               total_stars := fold_left (fun sum r => sum + stars r) l 0;
               total_forks := fold_left (fun sum r => sum + forks r) l 0;
               by_language := tally_languages sorted;
               most_active :=
                 map (fun r => (name r, recent_activity r)) (take 5 sorted);
               repositories := stats |},
            <[stats := sorted]> store)
  end.

(** The text written to [repo-stats.json]: the summary with the array
    behind [repositories] as it is when [JSON.stringify] runs. *)
Definition written_repositories (s : summary) (store : gmap ref (list stat))
  : list stat :=
  default [] (store !! repositories s).

(** Adding up the values of [by_language] with [+]: text absorbs. *)
Definition add_tally (a b : tally) : tally :=
  match a, b with
  | Number x, Number y => Number (x + y)
  | _, _ => Text
  end.

Definition sum_by_language (m : gmap string tally) : tally :=
  map_fold (fun _ v acc => add_tally v acc) (Number 0) m.

(** The number an activity stands for in a ranking, when the text 'N/A'
    is taken to stand for [na]. *)
Definition activity_key (na : Z) (v : activity) : Z :=
  match v with Commits z => z | NA => na end.

Definition descending_as (na : Z) (l : list activity) : Prop :=
  StronglySorted (fun a b => (activity_key na b <= activity_key na a)%Z) l.

(** The reading that the [|| 0] of the comparator suggests: an activity
    that is no number counts as 0. *)
Definition descending (l : list activity) : Prop := descending_as 0 l.

(** How many records carry the language [k]. *)
Definition occurrences (k : string) (stats : list stat) : nat :=
  length (List.filter (fun r => String.eqb (language r) k) stats).

(** The entry the tally holds for a language seen [n] times: none before
    the first. *)
Definition counted (n : nat) : option tally :=
  if (n =? 0)%nat then None else Some (Number n).

(** [recent_activity] is a number. *)
Definition numeric (r : stat) : Prop := exists z, recent_activity r = Commits z.

End Stats.

(* ===================================================================== *)
(** * Section 4 of the script: repository lifecycle *)
(* ===================================================================== *)

Module Lifecycle.
Import GitHub.

(** Text is a sequence of bytes (UTF-8).  The keyword patterns below are
    ASCII, and without the [u] flag a case-insensitive pattern letter
    matches no character outside ASCII, so matching bytes agrees with
    matching UTF-16 code units. *)
Definition is_upper (c : ascii) : bool :=
  let n := N_of_ascii c in ((65 <=? n) && (n <=? 90))%N.

Definition to_lower (c : ascii) : ascii :=
  if is_upper c then ascii_of_N (N_of_ascii c + 32) else c.

Definition same_char (ignoreCase : bool) (a b : ascii) : bool :=
  if ignoreCase then Ascii.eqb (to_lower a) (to_lower b) else Ascii.eqb a b.

(** [pat] matches at the start of [s]. *)
Fixpoint matches_here (ignoreCase : bool) (pat s : string) : bool :=
  match pat, s with
  | EmptyString, _ => true
  | String _ _, EmptyString => false
  | String p pat', String c s' =>
      same_char ignoreCase p c && matches_here ignoreCase pat' s'
  end.

(** [pat] matches somewhere in [s]. *)
Fixpoint occurs (ignoreCase : bool) (pat s : string) : bool :=
  matches_here ignoreCase pat s ||
  match s with
  | EmptyString => false
  | String _ s' => occurs ignoreCase pat s'
  end.

(** A pattern of the form [/w1|w2|...|wn/] or [/w1|...|wn/i] with literal
    words. *)
Record regex := Regex {
  alternatives : list string;
  ignoreCase : bool
}.

(** [regex.test(s)]; no pattern here carries the [g] flag, so [test]
    keeps no position between calls. *)
Definition test (re : regex) (s : string) : bool :=
  existsb (fun w => occurs (ignoreCase re) w s) (alternatives re).

Definition day_ms : Z := 86400000.

(** [cutoffDate]: [setDate(getDate() - daysInactive)] moves the local
    calendar date; the job runs on a UTC clock, where every day has
    [day_ms] milliseconds. *)
Definition cutoffDate (now daysInactive : Z) : Z := now - daysInactive * day_ms.

(** The filter of lines 345-348. *)
Definition is_stale (cutoff : Z) (i : issue) : bool :=
  match updated_at i with
  | Some lastActivity => (lastActivity <? cutoff)%Z && negb (pull_request i)
  | None => false
  end.

Definition decimal (z : Z) : string := NilZero.string_of_int (Z.to_int z).

Definition closing_comment (daysInactive : Z) : string :=
  String.append "🤖 Closing due to inactivity ("
    (String.append (decimal daysInactive)
       "+ days). Feel free to reopen if still relevant.").

Inductive stale_result :=
| StaleReport (repo : string) (stale_count closed_count : nat)
    (closed : list (Z * string))          (* { number, title } *)
| StaleError (repo error : string).

(** The [for (const issue of staleIssues)] loop.  [done] are the calls
    that went through so far; a rejected call ends the loop with the
    message of its error. *)
Fixpoint close_each (o : octokit) (owner repo : string) (daysInactive : Z)
    (staleIssues : list issue) (closed : list (Z * string)) (done : list call)
  : list call * (string + list (Z * string)) :=
  match staleIssues with
  | [] => (done, inr closed)
  | i :: rest =>
      let comment :=
        createComment owner repo (number i) (closing_comment daysInactive) in
      match rejects o comment with
      | Some msg => (done, inl msg)
      | None =>
          let close := update owner repo (number i) "closed" "not_planned" in
          match rejects o close with
          | Some msg => (done ++ [comment], inl msg)
          | None =>
              close_each o owner repo daysInactive rest
                (closed ++ [(number i, title i)]) (done ++ [comment; close])
          end
      end
  end.

(** closeStaleIssues; [now] is the instant of [new Date()] in
    milliseconds.  Returns the calls that took effect and the result. *)
Definition closeStaleIssues (o : octokit) (now : Z) (owner repo : string)
    (daysInactive : Z) : list call * stale_result :=
  match listForRepo o owner repo 100 with
  | inl msg => ([], StaleError repo msg)
  | inr data =>
      let staleIssues := List.filter (is_stale (cutoffDate now daysInactive)) data in
      match close_each o owner repo daysInactive staleIssues [] [] with
      | (done, inl msg) => (done, StaleError repo msg)
      | (done, inr closed) =>
          (done, StaleReport repo (length staleIssues) (length closed) closed)
      end
  end.

(** The default value of the parameter. *)
Definition default_daysInactive : Z := 30.

Definition labelRules : list (string * regex) :=
  [ ("bug", Regex ["bug"; "error"; "crash"; "fail"] true);
    ("feature", Regex ["feature"; "enhancement"; "request"; "add"] true);
    ("documentation", Regex ["doc"; "readme"; "guide"; "tutorial"] true);
    ("question", Regex ["how"; "why"; "what"; "help"; "support"] true);
    ("good first issue", Regex ["beginner"; "starter"; "simple"] true) ].

(** [issue.title + ' ' + (issue.body || '')] *)
Definition labelled_text (i : issue) : string :=
  String.append (title i) (String.append " " (default "" (body i))).

Definition matchedLabels (i : issue) : list string :=
  map fst (List.filter (fun rule => test (snd rule) (labelled_text i)) labelRules).

Inductive label_result :=
| LabelReport (repo : string) (processed labeled : nat)
| LabelError (repo error : string).

Fixpoint label_each (o : octokit) (owner repo : string)
    (issues : list issue) (labeled : nat) (done : list call)
  : list call * (string + nat) :=
  match issues with
  | [] => (done, inr labeled)
  | i :: rest =>
      let labels := matchedLabels i in
      if (0 <? length labels)%nat then
        let c := addLabels owner repo (number i) labels in
        match rejects o c with
        | Some msg => (done, inl msg)
        | None => label_each o owner repo rest (S labeled) (done ++ [c])
        end
      else label_each o owner repo rest labeled done
  end.

Definition autoLabelIssues (o : octokit) (owner repo : string)
  : list call * label_result :=
  match listForRepo o owner repo 50 with
  | inl msg => ([], LabelError repo msg)
  | inr data =>
      match label_each o owner repo data 0%nat [] with
      | (done, inl msg) => (done, LabelError repo msg)
      | (done, inr labeled) => (done, LabelReport repo (length data) labeled)
      end
  end.

(** The two calls made for one stale issue. *)
Definition closing_calls (owner repo : string) (daysInactive : Z) (i : issue)
  : list call :=
  [ createComment owner repo (number i) (closing_comment daysInactive);
    update owner repo (number i) "closed" "not_planned" ].

(** The call made for one issue of the labelling loop, if any. *)
Definition label_calls (owner repo : string) (i : issue) : list call :=
  if (0 <? length (matchedLabels i))%nat
  then [addLabels owner repo (number i) (matchedLabels i)]
  else [].

End Lifecycle.

(* ===================================================================== *)
(** * The health report *)
(* ===================================================================== *)

Module Health.

(** One entry of [lintResults.checks]. *)
Record check := Check {
  check_language : string;
  status : string;
  issues : Z
}.

Record lint_results := LintResults {
  checks : list check;
  lint_total : Z;
  lint_passed : Z;
  lint_failed : Z
}.

(** [vulnResults.summary] *)
Record severity_tally := SeverityTally {
  critical : Z;
  high : Z;
  moderate : Z;
  low : Z
}.

Definition CRITICAL : string :=
  "🔴 CRITICAL: Address security vulnerabilities immediately".
Definition HIGH : string :=
  "🟠 HIGH: Review and patch high-priority vulnerabilities".
Definition MEDIUM : string :=
  "🟡 MEDIUM: Fix linting errors across repositories".
Definition ARCHIVE : string :=
  "📦 Consider archiving completed projects for better organization".

(** [Object.keys] of an array: its indices, as text. *)
Definition Object_keys {A} (a : list A) : list string :=
  map (fun i => NilZero.string_of_uint (Nat.to_uint i)) (seq 0 (length a)).

(** [c.status] where [c] is a string: no such property. *)
Definition status_of_key (c : string) : option string := None.

(** [Object.keys(lintResults.checks).some(c => c.status === 'failed')] *)
Definition some_failed (l : lint_results) : bool :=
  existsb
    (fun c => match status_of_key c with
              | Some s => String.eqb s "failed"
              | None => false
              end)
    (Object_keys (checks l)).

Record portfolio_health := PortfolioHealth {
  overall_score : Z;
  health_repositories : nat;
  health_total_stars : Z;
  health_recent_activity : string
}.

Record report := Report {
  report_timestamp : string;
  health : portfolio_health;
  code_quality : lint_results;
  security : severity_tally;
  recommendations : list string
}.

Definition when (b : bool) (msg : string) : list string :=
  if b then [msg] else [].

(** generateHealthReport (lines 423-463); the four [if]s push in turn. *)
Definition generateHealthReport (now : string) (lintResults : lint_results)
    (vulnResults : severity_tally) (statsData : Stats.summary) : report :=
  {| report_timestamp := now;
     health := {| overall_score := 85;
                  health_repositories := Stats.active_repos statsData;
                  health_total_stars := Stats.total_stars statsData;
                  health_recent_activity := "active" |};
     code_quality := lintResults;
     security := vulnResults;
     recommendations :=
       when (0 <? critical vulnResults)%Z CRITICAL ++
       when (0 <? high vulnResults)%Z HIGH ++
       when (some_failed lintResults) MEDIUM ++
       when (5 <? Z.of_nat (Stats.total_repos statsData)
                  - Z.of_nat (Stats.active_repos statsData))%Z ARCHIVE |}.

End Health.

(* ===================================================================== *)
(** * Sample data *)
(* ===================================================================== *)

Module Samples.
Import GitHub Stats.

(** A repository of the listing with a name and a language. *)
Definition sample_repo (name : string) (language : option string) : repo :=
  {| r_name := name; r_html_url := ""; r_description := None;
     r_language := language; r_stargazers_count := 0; r_forks_count := 0;
     r_open_issues_count := 0; r_topics := None; r_fork := false;
     r_private := false; r_archived := false; r_size := 0;
     r_watchers_count := 0; r_updated_at := ""; r_created_at := "";
     r_pushed_at := ""; r_visibility := "public"; r_default_branch := "main" |}.

(** A statistics record with a name and a recent activity. *)
Definition sample_stat (name : string) (recent : activity) : stat :=
  to_stat (sample_repo name (Some "JavaScript")) recent recent.

(** A listing of two pages, then empty pages; the commit activity is known
    for the repository "alpha" only. *)
Definition sample_octokit : octokit :=
  {| listForUser := fun req =>
       match page req with
       | 1%nat => Some [sample_repo "alpha" (Some "Rocq"); sample_repo "beta" None]
       | 2%nat => Some [sample_repo "gamma" (Some "")]
       | _ => Some []
       end;
     getCommitActivityData := fun _ repo =>
       if String.eqb repo "alpha" then Some [3; 0; 1; 2; 4]%Z else None;
     listForRepo := fun _ _ _ => inr [];
     rejects := fun _ => None |}.

(** Three open issues, last updated 5, 31 and 45 days before [now]. *)
Definition three_issues (now : Z) : list issue :=
  [ Issue 1 "recent" None (Some (now - 5 * 86400000)) false;
    Issue 2 "a month old" None (Some (now - 31 * 86400000)) false;
    Issue 3 "older" (Some "still open") (Some (now - 45 * 86400000)) false ].

(** A client whose issue listing is [data] and which accepts every call. *)
Definition issues_octokit (data : list issue) : octokit :=
  {| listForUser := fun _ => Some [];
     getCommitActivityData := fun _ _ => None;
     listForRepo := fun _ _ _ => inr data;
     rejects := fun _ => None |}.

(** A summary with [total] repositories of which [active] are not
    archived. *)
Definition sample_summary (total active : nat) : summary :=
  {| timestamp := ""; total_repos := total; active_repos := active;
     total_stars := 0; total_forks := 0; by_language := ∅;
     most_active := []; repositories := 1%positive |}.

End Samples.

(* ===================================================================== *)
(** * Section 1 of the script, continued: the daily fact *)
(* ===================================================================== *)

Module Facts.
Import Rotation.

(** The cursor that [JSON.stringify] leaves in the state file for an index:
    NaN is written as null. *)
Definition stored (n : number) : index_field :=
  match n with Int z => FNum z | NaN => FNull end.

(** The cursor on disk is one on which the embedding computes as the
    script does: the state file is missing or unparsable, or its
    [currentIndex] is absent, null, a boolean or an integer that a double
    holds and increments exactly.  (A fraction or a text under the key has
    no counterpart in [index_field].) *)
Definition exact_cursor (disk : filesystem) : Prop :=
  match persisted_index disk with
  | Some (FNum z) => (Z.abs z < 2 ^ 53)%Z
  | _ => True
  end.

(** One entry of the catalog: [{ fact, source }]. *)
Record fact_record := FactRecord {
  fact : string;
  source : string
}.

Definition FACT_CATEGORIES (c : category) : list fact_record :=
  match c with
  | LIFE =>
      [ FactRecord "Every human possesses approximately 37.2 trillion cells" "Stanford Medicine";
        FactRecord "The human brain generates 12-25 watts of power continuously" "Neuroscience Today";
        FactRecord "Muscle memory is retained for decades even without practice" "Motor Learning Research";
        FactRecord "Sleep deprivation impairs cognition as much as alcohol intoxication" "Sleep Science Journal";
        FactRecord "The gut microbiome contains 38 trillion microorganisms" "Cell Journal" ]
  | PEOPLE =>
      [ FactRecord "Psychological research shows 7 basic universal emotions across cultures" "Paul Ekman Research";
        FactRecord "Social connection is as vital to health as sleep and exercise" "Harvard Study of Adult Development";
        FactRecord "Humans process faces in 13 milliseconds" "MIT Cognitive Science";
        FactRecord "Loneliness increases mortality risk by 26% to 32%" "Nature Medicine";
        FactRecord "Mirror neurons enable empathy and social learning" "Neuroscience International" ]
  | TECH =>
      [ FactRecord "Moore's Law has held true for 60+ years despite predictions of failure" "Intel Architecture";
        FactRecord "SHA-256 would require 2^256 operations to brute force—longer than universe's age" "Cryptography Standards";
        FactRecord "Quantum entanglement enables instant correlations across any distance" "Bell Theorem Physics";
        FactRecord "GPT models achieve 99.7% accuracy on certain benchmark datasets" "OpenAI Research";
        FactRecord "Zero-knowledge proofs enable verification without revealing underlying data" "Cryptographic Research" ]
  end.

(** A call either returns or throws a TypeError. *)
Inductive completion (A : Type) :=
| Returns (a : A)
| Throws.
Arguments Returns {A} a.
Arguments Throws {A}.

(** getRandomFact.  [draw] is the value of
    [Math.floor(Math.random() * facts.length)].  With no category the
    catalog has no entry and reading [facts.length] throws; a draw off the
    array gives undefined, which is returned. *)
Definition getRandomFact (category : option category) (draw : nat)
  : completion (option fact_record) :=
  match category with
  | None => Throws
  | Some c => Returns (nth_error (FACT_CATEGORIES c) draw)
  end.

(** [isoString.split('T')[0]]: the text before the first letter T. *)
Fixpoint before_T (s : string) : string :=
  match s with
  | EmptyString => EmptyString
  | String c s' => if Ascii.eqb c "T"%char then EmptyString else String c (before_T s')
  end.

(** [n + 1] on a number. *)
Definition increment (n : number) : number :=
  match n with
  | Int z => Int (z + 1)
  | NaN => NaN
  end.

Record factData := FactData {
  date : string;
  timestamp : string;
  category_of : option category;     (* the property [category] *)
  fact_of : string;                  (* the property [fact] *)
  source_of : string;                (* the property [source] *)
  rotation_cycle : list category;
  next_category : option category
}.

(** The file-system operations of updateDailyFact: those of
    rotateFactCategory, then its own. *)
Inductive op :=
| Rotation_op (o : fs_op)
| MkdirSync_data
| WriteFileSync_fact (d : factData).

(** updateDailyFact.  The three instants are the values of
    [new Date().toISOString()] at lines 67, 79 and 80; [daily] is the
    content of [daily-fact.json], which lies in the directory of the state
    file.  The result is the completion, the two files afterwards and the
    operations performed. *)
Definition updateDailyFact (t_rotate t_date t_stamp : string) (draw : nat)
    (disk : filesystem) (daily : option factData)
  : completion factData * filesystem * option factData * list op :=
  let '(rotationState, disk1, log) := rotateFactCategory t_rotate disk in
  let log1 := map Rotation_op log in
  match getRandomFact (currentCategory rotationState) draw with
  | Throws => (Throws, disk1, daily, log1)
  | Returns None => (Throws, disk1, daily, log1)
  | Returns (Some selectedFact) =>
      let d := {| date := before_T t_date;
                  timestamp := t_stamp;
                  category_of := currentCategory rotationState;
                  fact_of := fact selectedFact;
                  source_of := source selectedFact;
                  rotation_cycle := ROTATION_CYCLE;
                  next_category :=
                    cycle_at (modulo_cycle (increment (currentIndex rotationState))) |} in
      let '(disk2, mk) :=
        match disk1 with
        | NoDir => (Dir None, [MkdirSync_data])
        | Dir f => (Dir f, [])
        end in
      (Returns d, disk2, Some d, log1 ++ mk ++ [WriteFileSync_fact d])
  end.

End Facts.

(* ===================================================================== *)
(** * The main function *)
(* ===================================================================== *)

Module Maintenance.
Import GitHub Stats Lifecycle.

(** What a run depends on, section by section.  The three scanners of
    section 3 run external tools and catch what these throw; the run only
    uses the values they return, which are given here. *)
Record inputs := Inputs {
  (* section 1: the arguments of updateDailyFact *)
  t_rotate : string;
  t_date : string;
  t_stamp : string;
  draw : nat;
  disk : Rotation.filesystem;
  daily : option Facts.factData;
  (* section 2 *)
  (** the client, as the calls that took effect so far have left the
      remote side *)
  server : list call -> octokit;
  owner : string;
  fuel : nat;
  t_stats : string;
  repoStats : ref;                    (* where the fetched array is put *)
  (* section 3 *)
  lintResults : Health.lint_results;
  vulnResults : Health.severity_tally;
  (* section 4: the instant of the [k]-th call of closeStaleIssues *)
  now_ms : nat -> Z;
  (* sections 5 and 6 *)
  t_report : string;
  t_end : string
}.



(** The loop of section 4 over [repoStats.slice(0, 5)]; [k] counts the
    repositories maintained so far. *)
Fixpoint maintain (server : list call -> octokit) (owner : string)
    (now_ms : nat -> Z) (repos : list stat) (k : nat)
    (history : list call) (maintenanceResults : list stale_result)
  : list call * list stale_result :=
  match repos with
  | [] => (history, maintenanceResults)
  | repo :: rest =>
      if is_archived repo
      then maintain server owner now_ms rest k history maintenanceResults
      else
        let '(done1, staleResult) :=
          closeStaleIssues (server history) (now_ms k) owner (name repo)
            default_daysInactive in
        let history1 := history ++ done1 in
        let '(done2, _) := autoLabelIssues (server history1) owner (name repo) in
        maintain server owner now_ms rest (S k) (history1 ++ done2)
          (maintenanceResults ++ [staleResult])
  end.

(** The [summary] of a successful run. *)
Record run_summary := RunSummary {
  fact_updated : bool;
  repos_scanned : nat;
  quality_checks_run : Z;
  repositories_maintained : nat;
  health_score : Z
}.

Inductive run_result :=
| Success (timestamp : string) (sections_completed : nat) (summary : run_summary)
| Failure.    (* [{ success: false, error }], the message is not kept *)

(** A run: what it returns and what it leaves behind. *)
Record run := Run {
  result : run_result;
  disk_after : Rotation.filesystem;
  daily_after : option Facts.factData;
  store_after : gmap ref (list stat);
  calls : list call;
  maintenanceResults : list stale_result;
  savedStats : option summary;
  healthReport : option Health.report
}.

(** runDailyMaintenance; [None] only when the pagination loop outlasts the
    fuel.  The array returned by fetchRepositoryStats is the one that
    saveRepositoryStats sorts, so section 4 takes its five repositories
    from the sorted array. *)
Definition runDailyMaintenance `{SortEngine} (i : inputs) : option run :=
  match Facts.updateDailyFact (t_rotate i) (t_date i) (t_stamp i) (draw i)
          (disk i) (daily i) with
  | (Facts.Throws, disk1, daily1, _) =>
      Some {| result := Failure; disk_after := disk1; daily_after := daily1;
              store_after := ∅; calls := []; maintenanceResults := [];
              savedStats := None; healthReport := None |}
  | (Facts.Returns fact, disk1, daily1, _) =>
      match fetchRepositoryStats (server i []) (owner i) (fuel i) with
      | None => None
      | Some stats =>
          match saveRepositoryStats (t_stats i) (repoStats i)
                  {[ repoStats i := stats ]} with
          | None => None
          | Some (saved, store1) =>
              let sorted := default [] (store1 !! repoStats i) in
              let '(history, results) :=
                maintain (server i) (owner i) (now_ms i) (take 5 sorted) 0 [] [] in
              let report :=
                Health.generateHealthReport (t_report i) (lintResults i)
                  (vulnResults i) saved in
              Some {| result :=
                        Success (t_end i) 6
                          {| fact_updated := true;
                             repos_scanned := total_repos saved;
                             quality_checks_run := Health.lint_total (lintResults i);
                             repositories_maintained := length results;
                             health_score := Health.overall_score (Health.health report) |};
                      disk_after := disk1; daily_after := daily1;
                      store_after := store1; calls := history;
                      maintenanceResults := results;
                      savedStats := Some saved; healthReport := Some report |}
          end
      end
  end.

End Maintenance.

(* ===================================================================== *)
(** * Text, for the statements about matching *)
(* ===================================================================== *)

Module Text.
Import Lifecycle.

(** The text with its ASCII capitals replaced by small letters. *)
Fixpoint lower_text (s : string) : string :=
  match s with
  | EmptyString => EmptyString
  | String c s' => String (to_lower c) (lower_text s')
  end.

(** [mid] is the word [w], letter for letter, or up to the case of ASCII
    letters when the pattern ignores case. *)
Definition spells (ignoreCase : bool) (w mid : string) : Prop :=
  if ignoreCase then lower_text mid = lower_text w else mid = w.

End Text.

(* ===================================================================== *)
(** * More sample data *)
(* ===================================================================== *)

Module MoreSamples.
Import GitHub Stats.

(** A listing that answers every page with the same repository. *)
Definition endless_octokit : octokit :=
  {| listForUser := fun _ => Some [Samples.sample_repo "alpha" (Some "Rocq")];
     getCommitActivityData := fun _ _ => None;
     listForRepo := fun _ _ _ => inr [];
     rejects := fun _ => None |}.

(** A listing whose second page is rejected. *)
Definition broken_octokit : octokit :=
  {| listForUser := fun req =>
       match page req with
       | 1%nat => Some [Samples.sample_repo "alpha" (Some "Rocq")]
       | _ => None
       end;
     getCommitActivityData := fun _ _ => Some [1; 2; 3; 4; 5; 6]%Z;
     listForRepo := fun _ _ _ => inr [];
     rejects := fun _ => None |}.

(** A record with a name, an archive flag and a recent activity. *)
Definition sample_record (name : string) (archived : bool) (recent : Z) : stat :=
  to_stat
    {| r_name := name; r_html_url := ""; r_description := None;
       r_language := Some "Rocq"; r_stargazers_count := 1; r_forks_count := 0;
       r_open_issues_count := 0; r_topics := None; r_fork := false;
       r_private := false; r_archived := archived; r_size := 0;
       r_watchers_count := 0; r_updated_at := ""; r_created_at := "";
       r_pushed_at := ""; r_visibility := "public"; r_default_branch := "main" |}
    (Commits recent) (Commits recent).

(** A client that lists [data] as the open issues and rejects exactly the
    calls for issue [bad]. *)
Definition rejecting_octokit (data : list issue) (bad : Z) : octokit :=
  {| listForUser := fun _ => Some [];
     getCommitActivityData := fun _ _ => None;
     listForRepo := fun _ _ _ => inr data;
     rejects := fun c =>
       match c with
       | createComment _ _ n _ | update _ _ n _ _ | addLabels _ _ n _ =>
           if (n =? bad)%Z then Some "Not Found" else None
       end |}.

(** The inputs of a run that starts from [disk], with the sample client
    answering the same whatever was called before. *)
Definition sample_inputs (disk : Rotation.filesystem) : Maintenance.inputs :=
  {| Maintenance.t_rotate := "2024-03-05T00:00:00.000Z";
     Maintenance.t_date := "2024-03-05T00:00:00.001Z";
     Maintenance.t_stamp := "2024-03-05T00:00:00.002Z";
     Maintenance.draw := 3;
     Maintenance.disk := disk;
     Maintenance.daily := None;
     Maintenance.server := fun _ => Samples.sample_octokit;
     Maintenance.owner := "octocat";
     Maintenance.fuel := 5;
     Maintenance.t_stats := "2024-03-05T00:00:01.000Z";
     Maintenance.repoStats := 1%positive;
     Maintenance.lintResults := Health.LintResults [] 0 0 0;
     Maintenance.vulnResults := Health.SeverityTally 0 0 0 0;
     Maintenance.now_ms := fun _ => 1709596802000%Z;
     Maintenance.t_report := "2024-03-05T00:00:03.000Z";
     Maintenance.t_end := "2024-03-05T00:00:04.000Z" |}.

End MoreSamples.

(* ===================================================================== *)
(** * Properties of the rotation cursor *)
(* ===================================================================== *)

Module RotationFacts.
Import Rotation.

Lemma modulo_cycle_valid z :
  (0 <= z)%Z -> modulo_cycle (Int z) = Int (z mod 3).
Proof.
  intros Hz. unfold modulo_cycle. simpl length.
  f_equal. apply Z.rem_mod_nonneg; lia.
Qed.

Lemma cycle_at_valid i :
  valid_index i -> cycle_at (Int i) = nth_error ROTATION_CYCLE (Z.to_nat i).
Proof.
  intros [Hlo _]. unfold cycle_at.
  destruct (Z.leb_spec 0 i); [reflexivity | lia].
Qed.

Lemma cycle_at_defined i :
  valid_index i -> exists c, cycle_at (Int i) = Some c /\ In c ROTATION_CYCLE.
Proof.
  intros Hi. rewrite (cycle_at_valid _ Hi).
  assert (Hc : i = 0 \/ i = 1 \/ i = 2) by (unfold valid_index in Hi; lia).
  destruct Hc as [-> | [-> | ->]]; simpl; eauto 6.
Qed.

(** One step from a persisted valid cursor. *)
Lemma rotate_step now disk i :
  persisted_index disk = Some (FNum i) -> valid_index i ->
  let r := rotateFactCategory now disk in
  currentIndex (r.1.1) = Int ((i + 1) mod 3) /\
  lastUpdated (r.1.1) = now /\
  currentCategory (r.1.1) = cycle_at (Int ((i + 1) mod 3)) /\
  r.1.2 = Dir (Some (stringify (r.1.1))) /\
  r.2 = [WriteFileSync (stringify (r.1.1))] /\
  persisted_index (r.1.2) = Some (FNum ((i + 1) mod 3)).
Proof.
  intros Hp Hi.
  destruct disk as [|[[|[|d|]]|]]; simpl in Hp; try discriminate.
  injection Hp as Hd.
  unfold rotateFactCategory, read_index. simpl get_currentIndex.
  rewrite Hd. simpl plus_one.
  rewrite modulo_cycle_valid by (unfold valid_index in Hi; lia).
  simpl. repeat split; reflexivity.
Qed.

Lemma mod_valid z : valid_index (z mod 3).
Proof. unfold valid_index. apply Z.mod_pos_bound. lia. Qed.

(** The state returned by the [n]-th of [n >= 1] consecutive invocations
    and the cursor it leaves on disk. *)
Lemma invocations_index clock n disk i :
  persisted_index disk = Some (FNum i) -> valid_index i ->
  exists s,
    (invocations clock (S n) disk).1 = Some s /\
    currentIndex s = Int ((i + Z.of_nat (S n)) mod 3) /\
    currentCategory s = cycle_at (Int ((i + Z.of_nat (S n)) mod 3)) /\
    persisted_index (invocations clock (S n) disk).2
      = Some (FNum ((i + Z.of_nat (S n)) mod 3)).
Proof.
  intros Hp Hi. induction n as [|n IH].
  - simpl invocations.
    pose proof (rotate_step (clock 0%nat) disk i Hp Hi) as Hstep.
    destruct (rotateFactCategory (clock 0%nat) disk) as [[s d] log].
    simpl in Hstep. destruct Hstep as (Hc & _ & Hk & _ & _ & Hd).
    exists s. repeat split; assumption.
  - destruct IH as (s0 & _ & _ & _ & Hd0).
    remember (S n) as m eqn:Hm.
    change (invocations clock (S m) disk) with
      (let '(_, disk') := invocations clock m disk in
       let '(s, disk'', _) := rotateFactCategory (clock m) disk' in
       (Some s, disk'')).
    destruct (invocations clock m disk) as [prev d0]. simpl in Hd0.
    pose proof (rotate_step (clock m) d0 _ Hd0 (mod_valid _)) as Hstep.
    destruct (rotateFactCategory (clock m) d0) as [[s d] log].
    simpl in Hstep. destruct Hstep as (Hc & _ & Hk & _ & _ & Hd).
    assert (Heq : ((i + Z.of_nat m) mod 3 + 1) mod 3 = (i + Z.of_nat (S m)) mod 3).
    { rewrite Nat2Z.inj_succ. rewrite Zplus_mod_idemp_l. f_equal. lia. }
    rewrite Heq in Hc, Hk, Hd.
    exists s. repeat split; assumption.
Qed.

(** C1. From a persisted state whose [currentIndex] is a valid index [i],
    one invocation returns and writes back index [(i+1) mod 3] together
    with the category at that place of the cycle; the [n]-th consecutive
    invocation returns index [(i+n) mod 3], so the cursor goes round the
    cycle, and the category returned by invocation [n+3] is the one
    returned by invocation [n]. *)
Theorem rotation_round_robin now clock disk i :
  persisted_index disk = Some (FNum i) -> valid_index i ->
  (let r := rotateFactCategory now disk in
   currentIndex (r.1.1) = Int ((i + 1) mod 3) /\
   currentCategory (r.1.1)
     = nth_error ROTATION_CYCLE (Z.to_nat ((i + 1) mod 3)) /\
   r.1.2 = Dir (Some (Json (JObject
     {| doc_currentIndex := FNum ((i + 1) mod 3);
        doc_lastUpdated := Some now;
        doc_currentCategory :=
          category_name <$>
            nth_error ROTATION_CYCLE (Z.to_nat ((i + 1) mod 3)) |})))) /\
  (forall n, exists s s3,
     (invocations clock (S n) disk).1 = Some s /\
     (invocations clock (S n + 3) disk).1 = Some s3 /\
     currentIndex s = Int ((i + Z.of_nat (S n)) mod 3) /\
     currentCategory s
       = nth_error ROTATION_CYCLE (Z.to_nat ((i + Z.of_nat (S n)) mod 3)) /\
     is_Some (currentCategory s) /\
     currentCategory s3 = currentCategory s).
Proof.
  intros Hp Hi. split.
  - pose proof (rotate_step now disk i Hp Hi) as Hstep.
    destruct (rotateFactCategory now disk) as [[s d] log].
    cbv zeta in *. cbn [fst snd] in *.
    destruct Hstep as (Hc & Hn & Hk & Hd & _ & _).
    rewrite (cycle_at_valid _ (mod_valid (i + 1))) in Hk.
    repeat split; try assumption.
    rewrite Hd. unfold stringify. rewrite Hc, Hn, Hk. reflexivity.
  - intros n.
    destruct (invocations_index clock n disk i Hp Hi) as (s & Hs & Hc & Hk & _).
    destruct (invocations_index clock (n + 3) disk i Hp Hi)
      as (s3 & Hs3 & _ & Hk3 & _).
    exists s, s3.
    pose proof (mod_valid (i + Z.of_nat (S n))) as Hv.
    assert (Hsame : (i + Z.of_nat (S (n + 3))) mod 3 = (i + Z.of_nat (S n)) mod 3).
    { replace (i + Z.of_nat (S (n + 3)))%Z
        with (i + Z.of_nat (S n) + 1 * 3)%Z by lia.
      apply Z_mod_plus_full. }
    repeat split.
    + exact Hs.
    + exact Hs3.
    + exact Hc.
    + rewrite Hk. apply cycle_at_valid, Hv.
    + destruct (cycle_at_defined _ Hv) as (c & Hcat & _).
      rewrite Hk, Hcat. eauto.
    + rewrite Hk3, Hk, Hsame. reflexivity.
Qed.

Lemma rotation_round_robin_witness :
  exists s, (invocations (fun _ => "2024-01-01T00:00:00.000Z") 4
               (Dir (Some (Json (JObject
                  {| doc_currentIndex := FNum 2;
                     doc_lastUpdated := None;
                     doc_currentCategory := None |}))))).1 = Some s
            /\ currentCategory s = Some LIFE.
Proof.
  destruct (rotation_round_robin "" (fun _ => "2024-01-01T00:00:00.000Z")
              (Dir (Some (Json (JObject
                  {| doc_currentIndex := FNum 2;
                     doc_lastUpdated := None;
                     doc_currentCategory := None |})))) 2
              eq_refl ltac:(unfold valid_index; lia)) as [_ H].
  destruct (H 3%nat) as (s & s3 & Hs & _ & _ & Hc & _).
  exists s. split; [exact Hs | exact Hc].
Defined.

(** Every invocation writes the state file exactly once, whatever the disk
    holds, and the disk afterwards holds what was written. *)
Lemma rotate_writes_once now disk :
  let r := rotateFactCategory now disk in
  writes (r.2) = [stringify (r.1.1)] /\ r.1.2 = Dir (Some (stringify (r.1.1))).
Proof. destruct disk as [|f]; split; reflexivity. Qed.

(** The returned index is valid whenever the stored property is null, a
    boolean or a number from -1 upwards. *)
Lemma rotate_valid_from_field now disk f :
  persisted_index disk = Some f ->
  match f with
  | FMissing => False
  | FNull | FBool _ => True
  | FNum z => (-1 <= z)%Z
  end ->
  exists i, currentIndex (rotateFactCategory now disk).1.1 = Int i /\ valid_index i.
Proof.
  intros Hp Hf.
  destruct disk as [|[[|[|d|]]|]]; simpl in Hp; try discriminate.
  injection Hp as Hd.
  unfold rotateFactCategory, read_index. simpl get_currentIndex.
  rewrite Hd. destruct f as [| |b|z]; simpl plus_one.
  - contradiction.
  - exists 1%Z. split; [reflexivity | unfold valid_index; lia].
  - destruct b; [exists 2%Z | exists 1%Z];
      (split; [reflexivity | unfold valid_index; lia]).
  - rewrite modulo_cycle_valid by lia.
    eexists. split; [reflexivity | apply mod_valid].
Qed.

(** C2. The state file holds the empty object, or an object whose
    [currentIndex] is -2: the invocation writes once, but the index it
    returns is NaN, respectively -1, no category is set, and the file
    written carries null, respectively -1, as its index. *)
Theorem rotation_index_escapes_cycle now :
  let empty := {| doc_currentIndex := FMissing;
                  doc_lastUpdated := None; doc_currentCategory := None |} in
  let minus2 := {| doc_currentIndex := FNum (-2);
                   doc_lastUpdated := None; doc_currentCategory := None |} in
  rotateFactCategory now (Dir (Some (Json (JObject empty))))
    = ({| currentIndex := NaN; lastUpdated := now; currentCategory := None |},
       Dir (Some (Json (JObject {| doc_currentIndex := FNull;
                                   doc_lastUpdated := Some now;
                                   doc_currentCategory := None |}))),
       [WriteFileSync (Json (JObject {| doc_currentIndex := FNull;
                                        doc_lastUpdated := Some now;
                                        doc_currentCategory := None |}))]) /\
  rotateFactCategory now (Dir (Some (Json (JObject minus2))))
    = ({| currentIndex := Int (-1); lastUpdated := now; currentCategory := None |},
       Dir (Some (Json (JObject {| doc_currentIndex := FNum (-1);
                                   doc_lastUpdated := Some now;
                                   doc_currentCategory := None |}))),
       [WriteFileSync (Json (JObject {| doc_currentIndex := FNum (-1);
                                        doc_lastUpdated := Some now;
                                        doc_currentCategory := None |}))]) /\
  ~ valid_index (-1).
Proof.
  repeat split; unfold valid_index; lia.
Qed.

(** C3. With the state file missing or unparsable, one invocation returns
    the state with [currentIndex] 0 and category LIFE, writes that state
    and nothing else to the file; the parse error is absorbed. *)
Theorem rotation_missing_or_corrupt now disk :
  missing_or_corrupt disk = true ->
  let r := rotateFactCategory now disk in
  r.1.1 = fresh now /\
  currentIndex (r.1.1) = Int 0 /\
  r.1.2 = Dir (Some (stringify (fresh now))) /\
  writes (r.2) = [stringify (fresh now)].
Proof.
  intros H. destruct disk as [|[[|p]|]]; try discriminate H;
    repeat split; reflexivity.
Qed.

Lemma rotation_missing_or_corrupt_witness :
  currentIndex (rotateFactCategory "2024-01-01T00:00:00.000Z"
                  (Dir (Some Garbled))).1.1 = Int 0.
Proof.
  exact (proj1 (proj2 (rotation_missing_or_corrupt
                         "2024-01-01T00:00:00.000Z" (Dir (Some Garbled)) eq_refl))).
Defined.

(** The text null parses, but reading a property of it throws; this too
    ends in the fallback state. *)
Lemma rotation_null_document now :
  (rotateFactCategory now (Dir (Some (Json JNull)))).1.1 = fresh now.
Proof. reflexivity. Qed.

End RotationFacts.

(* ===================================================================== *)
(** * Array.prototype.sort: consequences of consistency, and the
      reference engine *)
(* ===================================================================== *)

Module SortFacts.
Import Stats.

Section Consistent.
Context {A : Type} (cmp : A -> A -> order) (u : list A).
Hypothesis Hcons : consistent cmp u.

Lemma before_after a b :
  In a u -> In b u -> cmp a b = Before -> cmp b a = After.
Proof.
  intros Ha Hb Hab. destruct (cmp b a) eqn:Hba; [| | reflexivity].
  - pose proof (before_trans _ _ Hcons a b a Ha Hb Ha Hab Hba) as Haa.
    rewrite (same_refl _ _ Hcons a Ha) in Haa. discriminate.
  - rewrite (same_sym _ _ Hcons b a Hb Ha Hba) in Hab. discriminate.
Qed.

Lemma after_before a b :
  In a u -> In b u -> cmp a b = After -> cmp b a = Before.
Proof.
  intros Ha Hb Hab. destruct (cmp b a) eqn:Hba; [reflexivity | |].
  - rewrite (same_sym _ _ Hcons b a Hb Ha Hba) in Hab. discriminate.
  - pose proof (after_trans _ _ Hcons a b a Ha Hb Ha Hab Hba) as Haa.
    rewrite (same_refl _ _ Hcons a Ha) in Haa. discriminate.
Qed.

(** "Not after" is transitive on the values of [u]. *)
Lemma not_after_trans a b c :
  In a u -> In b u -> In c u ->
  cmp a b <> After -> cmp b c <> After -> cmp a c <> After.
Proof.
  intros Ha Hb Hc Hab Hbc Hac.
  pose proof (after_before a c Ha Hc Hac) as Hca.
  destruct (cmp a b) eqn:Eab; [| | congruence];
    destruct (cmp b c) eqn:Ebc; try congruence.
  - rewrite (before_trans _ _ Hcons a b c Ha Hb Hc Eab Ebc) in Hac. discriminate.
  - pose proof (before_trans _ _ Hcons c a b Hc Ha Hb Hca Eab) as Hcb.
    rewrite (same_sym _ _ Hcons b c Hb Hc Ebc) in Hcb. discriminate.
  - pose proof (before_trans _ _ Hcons b c a Hb Hc Ha Ebc Hca) as Hba.
    rewrite (same_sym _ _ Hcons a b Ha Hb Eab) in Hba. discriminate.
  - rewrite (same_trans _ _ Hcons a b c Ha Hb Hc Eab Ebc) in Hac. discriminate.
Qed.

Lemma In_insert x y l : In y (insert cmp x l) <-> y = x \/ In y l.
Proof.
  induction l as [|z l IH]; simpl.
  - intuition.
  - destruct (cmp x z); simpl; rewrite ?IH; intuition.
Qed.

Lemma insert_sorted x l :
  In x u -> incl l u ->
  StronglySorted (fun a b => cmp a b <> After) l ->
  StronglySorted (fun a b => cmp a b <> After) (insert cmp x l).
Proof.
  intros Hx Hl Hs. induction l as [|y l IH]; simpl.
  - repeat constructor.
  - assert (Hy : In y u) by (apply Hl; left; reflexivity).
    assert (Hl' : incl l u) by (intros z Hz; apply Hl; right; exact Hz).
    pose proof (StronglySorted_inv Hs) as [Hs' Hall].
    assert (Hkeep : cmp x y <> After ->
                    StronglySorted (fun a b => cmp a b <> After) (x :: y :: l)).
    { intros Hxy. constructor; [exact Hs |].
      constructor; [exact Hxy |].
      rewrite List.Forall_forall in Hall |- *. intros z Hz.
      apply (not_after_trans x y z);
        [exact Hx | exact Hy | apply Hl', Hz | exact Hxy | apply Hall, Hz]. }
    destruct (cmp x y) eqn:Hxy; try (apply Hkeep; congruence).
    constructor; [apply IH; assumption |].
    rewrite List.Forall_forall in Hall |- *. intros z Hz.
    apply In_insert in Hz as [-> | Hz]; [| apply Hall, Hz].
    rewrite (after_before x y Hx Hy Hxy). discriminate.
Qed.

Lemma insert_filter c x l :
  In c u -> In x u -> incl l u ->
  List.filter (same cmp c) (insert cmp x l) = List.filter (same cmp c) (x :: l).
Proof.
  intros Hc Hx Hl. induction l as [|y l IH]; [reflexivity |].
  assert (Hy : In y u) by (apply Hl; left; reflexivity).
  assert (Hl' : incl l u) by (intros z Hz; apply Hl; right; exact Hz).
  simpl insert. destruct (cmp x y) eqn:Hxy; try reflexivity.
  change (List.filter (same cmp c) (y :: insert cmp x l))
    with (if same cmp c y then y :: List.filter (same cmp c) (insert cmp x l)
          else List.filter (same cmp c) (insert cmp x l)).
  rewrite (IH Hl'). simpl.
  destruct (same cmp c x) eqn:Hcx, (same cmp c y) eqn:Hcy; try reflexivity.
  exfalso. unfold same in Hcx, Hcy.
  destruct (cmp c x) eqn:Ecx; try discriminate.
  destruct (cmp c y) eqn:Ecy; try discriminate.
  pose proof (same_sym _ _ Hcons c x Hc Hx Ecx) as Exc.
  rewrite (same_trans _ _ Hcons x c y Hx Hc Hy Exc Ecy) in Hxy. discriminate.
Qed.

Lemma insertion_sort_sorted l :
  incl l u -> StronglySorted (fun a b => cmp a b <> After) (insertion_sort cmp l).
Proof.
  induction l as [|x l IH]; intros Hl; simpl.
  - constructor.
  - assert (Hl' : incl l u) by (intros z Hz; apply Hl; right; exact Hz).
    apply insert_sorted; [apply Hl; left; reflexivity | | apply IH, Hl'].
    intros z Hz. apply Hl'.
    clear -Hz. induction l as [|y l IHl]; simpl in Hz; [contradiction |].
    apply In_insert in Hz as [-> | Hz]; [left; reflexivity | right; auto].
Qed.

End Consistent.

Lemma In_insertion_sort {A} (cmp : A -> A -> order) l y :
  In y (insertion_sort cmp l) <-> In y l.
Proof.
  induction l as [|x l IH]; simpl; [reflexivity |].
  rewrite In_insert, IH. intuition.
Qed.

Lemma insertion_sort_filter {A} (cmp : A -> A -> order) u l c :
  consistent cmp u -> In c u -> incl l u ->
  List.filter (same cmp c) (insertion_sort cmp l) = List.filter (same cmp c) l.
Proof.
  intros Hcons Hc. induction l as [|x l IH]; intros Hl; [reflexivity |].
  assert (Hl' : incl l u) by (intros z Hz; apply Hl; right; exact Hz).
  simpl insertion_sort.
  rewrite (insert_filter cmp u Hcons); auto.
  - simpl. rewrite (IH Hl'). reflexivity.
  - apply Hl. left. reflexivity.
  - intros z Hz. apply Hl'. apply (proj1 (In_insertion_sort cmp l z) Hz).
Qed.

Lemma insert_permutation {A} (cmp : A -> A -> order) x l :
  Permutation (x :: l) (insert cmp x l).
Proof.
  induction l as [|y l IH]; simpl; [reflexivity |].
  destruct (cmp x y); try reflexivity.
  rewrite perm_swap. constructor. exact IH.
Qed.

Lemma insertion_sort_permutation {A} (cmp : A -> A -> order) l :
  Permutation l (insertion_sort cmp l).
Proof.
  induction l as [|x l IH]; simpl; [constructor |].
  rewrite <- insert_permutation. constructor. exact IH.
Qed.

(** Straight insertion meets the contract of the language. *)
Definition insertion_engine : SortEngine :=
  {| Array_sort := @insertion_sort;
     Array_sort_permutes := @insertion_sort_permutation;
     Array_sort_consistent := fun A cmp l Hcons =>
       conj (insertion_sort_sorted cmp l Hcons l (incl_refl l))
            (fun c Hc => insertion_sort_filter cmp l l c Hcons Hc (incl_refl l)) |}.

(** When every two values compare [Same], a consistent case, each engine
    leaves the array as it is. *)
Lemma sort_all_same `{SortEngine} {A} (cmp : A -> A -> order) l :
  (forall a b, In a l -> In b l -> cmp a b = Same) ->
  Array_sort cmp l = l.
Proof.
  intros Hsame.
  assert (Hcons : consistent cmp l).
  { split.
    - intros a Ha. auto.
    - intros a b Ha Hb _. auto.
    - intros a b c Ha Hb Hc _ _. auto.
    - intros a b c Ha Hb Hc Hab _. rewrite Hsame in Hab by assumption. discriminate.
    - intros a b c Ha Hb Hc Hab _. rewrite Hsame in Hab by assumption. discriminate. }
  destruct (Array_sort_consistent A cmp l Hcons) as [_ Hst].
  destruct l as [|x l]; [| specialize (Hst x (or_introl eq_refl))].
  - pose proof (Array_sort_permutes A cmp []) as Hp.
    apply Permutation_nil in Hp. exact Hp.
  - assert (Hall : forall l', (forall y, In y l' -> In y (x :: l)) ->
                     List.filter (same cmp x) l' = l').
    { induction l' as [|y l' IH]; intros Hin; [reflexivity |].
      simpl. unfold same at 1.
      rewrite (Hsame x y) by (auto using in_eq, in_cons; apply Hin, in_eq).
      f_equal. apply IH. intros z Hz. apply Hin, in_cons, Hz. }
    rewrite (Hall (x :: l)) in Hst by auto.
    rewrite Hall in Hst; [exact Hst |].
    intros y Hy. apply (Permutation_in y (Permutation_sym (Array_sort_permutes A cmp (x :: l)))), Hy.
Qed.

End SortFacts.

(* ===================================================================== *)
(** * Properties of the statistics collector *)
(* ===================================================================== *)

Module StatsFacts.
Import GitHub Stats.

(** The loop, started at [page] with [d] requests to go before an empty
    page is certain: it stops at the first empty page [page + k]. *)
Lemma paginate_reaches_empty o owner : forall d page repos sent,
  listForUser o (request owner (page + d)) = Some [] ->
  (forall j, (j < d)%nat -> is_Some (listForUser o (request owner (page + j)))) ->
  exists k, (k <= d)%nat /\
    listForUser o (request owner (page + k)) = Some [] /\
    (forall j, (j < k)%nat -> page_data o owner (page + j) <> []) /\
    forall fuel, (k < fuel)%nat ->
      paginate o owner fuel page repos sent
      = Some (sent ++ map (request owner) (seq page (S k)),
              inl (repos ++ concat (map (page_data o owner) (seq page k)))).
Proof.
  induction d as [|d IH]; intros page repos sent Hempty Hans.
  - exists 0%nat. rewrite Nat.add_0_r in *.
    split; [lia |]. split; [exact Hempty |]. split; [intros j Hj; lia |].
    intros [|fuel] Hf; [lia |]. simpl. rewrite Hempty. simpl.
    rewrite app_nil_r. reflexivity.
  - destruct (listForUser o (request owner page)) as [[|r data]|] eqn:Hpage.
    + exists 0%nat. rewrite Nat.add_0_r.
      split; [lia |]. split; [exact Hpage |]. split; [intros j Hj; lia |].
      intros [|fuel] Hf; [lia |]. simpl. rewrite Hpage. simpl.
      rewrite app_nil_r. reflexivity.
    + destruct (IH (S page) (repos ++ r :: data) (sent ++ [request owner page]))
        as (k & Hk & Hke & Hne & Hrun).
      { replace (S page + d)%nat with (page + S d)%nat by lia. exact Hempty. }
      { intros j Hj. replace (S page + j)%nat with (page + S j)%nat by lia.
        apply Hans. lia. }
      exists (S k). split; [lia |].
      replace (page + S k)%nat with (S page + k)%nat by lia.
      split; [exact Hke |]. split.
      * intros [|j] Hj.
        -- rewrite Nat.add_0_r. unfold page_data. rewrite Hpage. discriminate.
        -- replace (page + S j)%nat with (S page + j)%nat by lia.
           apply Hne. lia.
      * intros [|fuel] Hf; [lia |].
        simpl paginate. rewrite Hpage. simpl Nat.eqb. cbv iota.
        rewrite Hrun by lia.
        f_equal. f_equal.
        -- rewrite <- app_assoc. reflexivity.
        -- f_equal. rewrite <- app_assoc. f_equal.
           change (seq page (S k)) with (page :: seq (S page) k).
           simpl. unfold page_data at 2. rewrite Hpage. reflexivity.
    + exfalso. specialize (Hans 0%nat ltac:(lia)).
      rewrite Nat.add_0_r, Hpage in Hans. destruct Hans as [? ?]. discriminate.
Qed.

(** A rejected request ends the loop as well: with an empty page ahead the
    loop is over after at most as many requests, whatever the answers. *)
Lemma paginate_terminates o owner : forall d page repos sent,
  listForUser o (request owner (page + d)) = Some [] ->
  exists out, forall fuel, (d < fuel)%nat ->
    paginate o owner fuel page repos sent = Some out.
Proof.
  induction d as [|d IH]; intros page repos sent Hempty.
  - rewrite Nat.add_0_r in Hempty. eexists. intros [|fuel] Hf; [lia |].
    simpl. rewrite Hempty. reflexivity.
  - destruct (listForUser o (request owner page)) as [[|r data]|] eqn:Hpage.
    + eexists. intros [|fuel] Hf; [lia |]. simpl. rewrite Hpage. reflexivity.
    + destruct (IH (S page) (repos ++ r :: data) (sent ++ [request owner page]))
        as [out Hout].
      { replace (S page + d)%nat with (page + S d)%nat by lia. exact Hempty. }
      exists out. intros [|fuel] Hf; [lia |].
      simpl. rewrite Hpage. simpl. apply Hout. lia.
    + eexists. intros [|fuel] Hf; [lia |]. simpl. rewrite Hpage. reflexivity.
Qed.

(** C9. Every request asks for 100 entries per page.  If page [n >= 1] of
    the listing is empty and the pages before it are answered, the loop
    ends: there is a first empty page [k <= n], the loop sends the requests
    for pages 1 to [k] and no more, and it has accumulated the pages 1 to
    [k-1], all non-empty, in order, which fetchRepositoryStats turns into
    its records. *)
Theorem pagination_until_empty_page o owner n :
  (1 <= n)%nat ->
  listForUser o (request owner n) = Some [] ->
  (forall j, (1 <= j < n)%nat -> is_Some (listForUser o (request owner j))) ->
  (forall p, per_page (request owner p) = 100 /\ page (request owner p) = p) /\
  exists k, (1 <= k <= n)%nat /\
    listForUser o (request owner k) = Some [] /\
    (forall j, (1 <= j < k)%nat -> page_data o owner j <> []) /\
    forall fuel, (k <= fuel)%nat ->
      paginate o owner fuel 1 [] []
      = Some (map (request owner) (seq 1 k),
              inl (concat (map (page_data o owner) (seq 1 (k - 1))))) /\
      fetchRepositoryStats o owner fuel
      = Some (map (enrich o owner)
                (concat (map (page_data o owner) (seq 1 (k - 1))))).
Proof.
  intros Hn Hempty Hans. split; [intros p; split; reflexivity |].
  destruct (paginate_reaches_empty o owner (n - 1) 1 [] [])
    as (k & Hk & Hke & Hne & Hrun).
  { replace (1 + (n - 1))%nat with n by lia. exact Hempty. }
  { intros j Hj. apply Hans. lia. }
  exists (S k). split; [lia |]. split; [exact Hke |]. split.
  - intros j Hj. replace j with (1 + (j - 1))%nat by lia. apply Hne. lia.
  - intros fuel Hf.
    assert (Hp : paginate o owner fuel 1 [] []
                 = Some (map (request owner) (seq 1 (S k)),
                         inl (concat (map (page_data o owner) (seq 1 k))))).
    { rewrite Hrun by lia. reflexivity. }
    replace (S k - 1)%nat with k by lia.
    split; [exact Hp |].
    unfold fetchRepositoryStats. rewrite Hp. reflexivity.
Qed.

Lemma pagination_until_empty_page_witness :
  exists k, fetchRepositoryStats Samples.sample_octokit "octocat" 5
            = Some (map (enrich Samples.sample_octokit "octocat")
                      (concat (map (page_data Samples.sample_octokit "octocat")
                                 (seq 1 (k - 1))))).
Proof.
  destruct (pagination_until_empty_page Samples.sample_octokit "octocat" 4
              ltac:(lia) eq_refl) as [_ (k & Hk & _ & _ & Hrun)].
  - intros j Hj. destruct j as [|[|[|j]]]; simpl; eauto.
  - exists k. apply (Hrun 5%nat). lia.
Defined.

(** ** The language tally *)

Lemma add_tally_swap v1 v2 y :
  add_tally v1 (add_tally v2 y) = add_tally v2 (add_tally v1 y).
Proof.
  destruct v1, v2, y; simpl; try reflexivity. f_equal. lia.
Qed.

Lemma sum_insert_fresh (m : gmap string tally) k v :
  m !! k = None ->
  sum_by_language (<[k := v]> m) = add_tally v (sum_by_language m).
Proof.
  intros Hk. unfold sum_by_language.
  apply (map_fold_insert_L (fun _ v acc => add_tally v acc)); [| exact Hk].
  intros. apply add_tally_swap.
Qed.

Lemma sum_insert (m : gmap string tally) k v :
  sum_by_language (<[k := v]> m)
  = add_tally v (sum_by_language (delete k m)).
Proof.
  rewrite <- insert_delete_eq. apply sum_insert_fresh, lookup_delete_eq.
Qed.

Lemma sum_delete (m : gmap string tally) k v :
  m !! k = Some v ->
  sum_by_language m = add_tally v (sum_by_language (delete k m)).
Proof.
  intros Hk. rewrite <- (insert_id m k v Hk) at 1. apply sum_insert.
Qed.

Lemma occurrences_snoc k stats r :
  occurrences k (stats ++ [r])
  = (occurrences k stats + if String.eqb (language r) k then 1 else 0)%nat.
Proof.
  unfold occurrences. rewrite List.filter_app, length_app. simpl.
  destruct (String.eqb (language r) k); reflexivity.
Qed.

Lemma tally_languages_snoc stats r :
  tally_languages (stats ++ [r])
  = if truthy (language r)
    then count_language (tally_languages stats) (language r)
    else tally_languages stats.
Proof. unfold tally_languages. rewrite fold_left_app. reflexivity. Qed.

Lemma not_inherited_count (m : gmap string tally) k :
  k ∉ Object_prototype -> m !! k = None ->
  count_language m k = <[k := Number 1]> m.
Proof.
  intros Hk Hm. unfold count_language. rewrite Hm.
  rewrite bool_decide_eq_false_2 by exact Hk. reflexivity.
Qed.

(** With language names that are no inherited member of the tally object,
    the tally counts the records language by language, skips the records
    whose language is falsy, and its values add up to the number of records
    it did not skip. *)
Lemma tally_languages_spec stats :
  Forall (fun r => language r ∉ Object_prototype) stats ->
  (forall k, tally_languages stats !! k
             = if truthy k then counted (occurrences k stats) else None) /\
  sum_by_language (tally_languages stats)
  = Number (length (List.filter (fun r => truthy (language r)) stats)).
Proof.
  induction stats as [|r stats IH] using rev_ind; intros Hall.
  - split; [| reflexivity].
    intros k. unfold tally_languages. simpl. rewrite lookup_empty.
    destruct (truthy k); reflexivity.
  - apply Forall_app in Hall as [Hall Hr].
    apply Forall_inv in Hr.
    destruct (IH Hall) as [Hlook Hsum]. clear IH.
    rewrite tally_languages_snoc, List.filter_app, length_app. simpl.
    destruct (truthy (language r)) eqn:Htr.
    2:{ simpl. rewrite Nat.add_0_r. split; [| exact Hsum].
        intros k. rewrite Hlook, occurrences_snoc.
        destruct (String.eqb_spec (language r) k) as [<- |];
          [rewrite Htr; reflexivity | rewrite Nat.add_0_r; reflexivity]. }
    set (k0 := language r) in *. set (m := tally_languages stats) in *.
    pose proof (Hlook k0) as Hk0. rewrite Htr in Hk0. unfold counted in Hk0.
    assert (Hstep : count_language m k0
                    = <[k0 := Number (S (occurrences k0 stats))]> m).
    { destruct (occurrences k0 stats) as [|c] eqn:Hocc; simpl in Hk0.
      - apply not_inherited_count; assumption.
      - unfold count_language. rewrite Hk0. do 2 f_equal. lia. }
    rewrite Hstep. split.
    + intros k. rewrite occurrences_snoc. fold k0.
      destruct (String.eqb_spec k0 k) as [<- | Hne].
      * rewrite lookup_insert_eq, Htr. unfold counted.
        replace (occurrences k0 stats + 1)%nat with (S (occurrences k0 stats)) by lia.
        reflexivity.
      * rewrite lookup_insert_ne by exact Hne.
        rewrite Nat.add_0_r. apply Hlook.
    + destruct (occurrences k0 stats) as [|c] eqn:Hocc; simpl in Hk0.
      * rewrite sum_insert_fresh by exact Hk0. rewrite Hsum. simpl.
        f_equal. lia.
      * rewrite sum_insert. rewrite (sum_delete m k0 _ Hk0) in Hsum.
        destruct (sum_by_language (delete k0 m)) as [n' |]; [| discriminate].
        simpl in *. injection Hsum as Hsum. f_equal. lia.
Qed.

Lemma occurrences_permutation k l l' :
  Permutation l l' -> occurrences k l = occurrences k l'.
Proof.
  unfold occurrences. induction 1 as [| x l l' _ IH | x y l | l l' l'' _ IH1 _ IH2];
    simpl; try reflexivity.
  - destruct (String.eqb (language x) k); simpl; congruence.
  - destruct (String.eqb (language x) k), (String.eqb (language y) k); reflexivity.
  - congruence.
Qed.

Lemma truthy_count_permutation (l l' : list stat) :
  Permutation l l' ->
  length (List.filter (fun r => truthy (language r)) l)
  = length (List.filter (fun r => truthy (language r)) l').
Proof.
  induction 1 as [| x l l' _ IH | x y l | l l' l'' _ IH1 _ IH2];
    simpl; try reflexivity.
  - destruct (truthy (language x)); simpl; congruence.
  - destruct (truthy (language x)), (truthy (language y)); reflexivity.
  - congruence.
Qed.

(** ** Records produced by fetchRepositoryStats *)

Lemma or_default_truthy o d : truthy d = true -> truthy (or_default o d) = true.
Proof.
  intros Hd. unfold or_default. destruct o as [s|]; [| exact Hd].
  destruct (truthy s) eqn:Hs; assumption.
Qed.

Lemma language_enrich o owner r :
  language (enrich o owner r) = or_default (r_language r) "Unknown".
Proof. unfold enrich. destruct (getCommitActivityData o owner (r_name r)); reflexivity. Qed.

Lemma fetch_records o owner fuel stats :
  fetchRepositoryStats o owner fuel = Some stats ->
  exists repos, stats = map (enrich o owner) repos.
Proof.
  unfold fetchRepositoryStats.
  destruct (paginate o owner fuel 1 [] []) as [[sent [repos | []]]|];
    intros Heq; inversion Heq; subst.
  - exists repos. reflexivity.
  - exists []. reflexivity.
Qed.

(** ** saveRepositoryStats on any array *)

(** The call sorts the caller's array where it lies: the summary refers to
    that very array, which afterwards holds a permutation of the records it
    held before, and no other array of the store changes. *)
Lemma save_sorts_in_place `{SortEngine} now st (store : gmap ref (list stat)) l :
  store !! st = Some l ->
  exists s store',
    saveRepositoryStats now st store = Some (s, store') /\
    repositories s = st /\
    store' !! st = Some (Array_sort by_recent_activity l) /\
    written_repositories s store' = Array_sort by_recent_activity l /\
    Permutation l (Array_sort by_recent_activity l) /\
    (forall r, r <> st -> store' !! r = store !! r) /\
    total_repos s = length l /\
    by_language s = tally_languages (Array_sort by_recent_activity l) /\
    most_active s
    = map (fun r => (name r, recent_activity r))
        (take 5 (Array_sort by_recent_activity l)) /\
    (length (most_active s) <= 5)%nat.
Proof.
  intros Hl. unfold saveRepositoryStats. rewrite Hl.
  eexists _, _. split; [reflexivity |]. simpl.
  unfold written_repositories. simpl. rewrite lookup_insert_eq.
  repeat split; try reflexivity.
  - apply Array_sort_permutes.
  - intros r Hr. apply lookup_insert_ne. congruence.
  - rewrite length_map, length_take. lia.
Qed.

(** ** The ranking when every activity is a number *)

Lemma by_recent_activity_numeric a b za zb :
  recent_activity a = Commits za -> recent_activity b = Commits zb ->
  by_recent_activity a b
  = match (zb ?= za)%Z with Lt => Before | Eq => Same | Gt => After end.
Proof.
  intros Ha Hb. unfold by_recent_activity. rewrite Ha, Hb.
  assert (Hid : forall z, or_zero (Commits z) = Commits z).
  { intros z. simpl. destruct (Z.eqb_spec z 0); congruence. }
  rewrite !Hid. simpl.
  destruct (Z.compare_spec zb za), (Z.ltb_spec (zb - za) 0), (Z.ltb_spec 0 (zb - za));
    try reflexivity; lia.
Qed.

(** Replaces the comparisons of the goal and of the hypotheses by
    comparisons of integers and decides them. *)
Ltac order_by_compare :=
  repeat match goal with
         | |- context [(?x ?= ?y)%Z] => destruct (Z.compare_spec x y)
         | H : context [(?x ?= ?y)%Z] |- _ => destruct (Z.compare_spec x y)
         end;
  try discriminate; try reflexivity; try lia.

Lemma numeric_consistent l :
  Forall numeric l -> consistent by_recent_activity l.
Proof.
  intros Hall. rewrite List.Forall_forall in Hall.
  assert (Hcmp : forall a b, In a l -> In b l ->
            by_recent_activity a b
            = match (activity_key 0 (recent_activity b)
                     ?= activity_key 0 (recent_activity a))%Z with
              | Lt => Before | Eq => Same | Gt => After
              end).
  { intros a b Ha Hb. destruct (Hall a Ha) as [za Hza], (Hall b Hb) as [zb Hzb].
    rewrite (by_recent_activity_numeric a b za zb Hza Hzb), Hza, Hzb.
    reflexivity. }
  split.
  - intros a Ha. rewrite (Hcmp a a Ha Ha), Z.compare_refl. reflexivity.
  - intros a b Ha Hb. rewrite (Hcmp a b Ha Hb), (Hcmp b a Hb Ha).
    order_by_compare.
  - intros a b c Ha Hb Hc.
    rewrite (Hcmp a b Ha Hb), (Hcmp b c Hb Hc), (Hcmp a c Ha Hc).
    order_by_compare.
  - intros a b c Ha Hb Hc.
    rewrite (Hcmp a b Ha Hb), (Hcmp b c Hb Hc), (Hcmp a c Ha Hc).
    order_by_compare.
  - intros a b c Ha Hb Hc.
    rewrite (Hcmp a b Ha Hb), (Hcmp b c Hb Hc), (Hcmp a c Ha Hc).
    order_by_compare.
Qed.

Lemma In_take {A} (y : A) n l : In y (take n l) -> In y l.
Proof.
  revert n. induction l as [|x l IH]; intros [|n]; simpl; try tauto.
  intros [-> | Hy]; [left; reflexivity | right; eauto].
Qed.

Lemma StronglySorted_take {A} (R : A -> A -> Prop) n l :
  StronglySorted R l -> StronglySorted R (take n l).
Proof.
  intros Hs. revert n. induction Hs as [|x l Hs IH Hall]; intros [|n]; simpl;
    try constructor.
  - apply IH.
  - rewrite List.Forall_forall in Hall |- *. intros y Hy.
    apply Hall. apply (In_take y n l Hy).
Qed.

(** On an array whose activities are all numbers every engine ranks as the
    summary promises: the array, and with it [most_active], is in
    descending order of [recent_activity], records of equal activity stay
    in the order they came in, and [most_active] has the first five. *)
Lemma ranking_of_numbers `{SortEngine} now st (store : gmap ref (list stat)) l :
  store !! st = Some l -> Forall numeric l ->
  exists s store',
    saveRepositoryStats now st store = Some (s, store') /\
    (forall na,
       descending_as na (map recent_activity (Array_sort by_recent_activity l)) /\
       descending_as na (map snd (most_active s))) /\
    (length (most_active s) <= 5)%nat /\
    (forall c, In c l ->
       List.filter (same by_recent_activity c) (Array_sort by_recent_activity l)
       = List.filter (same by_recent_activity c) l) /\
    map snd (most_active s)
    = take 5 (map recent_activity (Array_sort by_recent_activity l)).
Proof.
  intros Hl Hnum.
  destruct (save_sorts_in_place now st store l Hl)
    as (s & store' & Hsave & _ & _ & _ & Hperm & _ & _ & _ & Hmost & Hlen).
  destruct (Array_sort_consistent _ _ l (numeric_consistent l Hnum)) as [Hsorted Hstable].
  assert (Hnum' : Forall numeric (Array_sort by_recent_activity l)).
  { rewrite List.Forall_forall in Hnum |- *. intros r Hr. apply Hnum.
    apply (Permutation_in r (Permutation_sym Hperm) Hr). }
  assert (Hdesc : forall na,
            descending_as na (map recent_activity (Array_sort by_recent_activity l))).
  { intros na. unfold descending_as. clear -Hsorted Hnum'.
    induction Hsorted as [|x l' Hs IH Hall]; simpl; constructor.
    - apply IH. inversion Hnum'; assumption.
    - inversion Hnum' as [|? ? [zx Hx] Hrest]; subst.
      rewrite List.Forall_forall in Hall, Hrest. rewrite List.Forall_forall.
      intros v Hv. apply in_map_iff in Hv as (y & <- & Hy).
      destruct (Hrest y Hy) as [zy Hzy]. specialize (Hall y Hy).
      rewrite (by_recent_activity_numeric x y zx zy Hx Hzy) in Hall.
      rewrite Hx, Hzy. simpl.
      destruct (Z.compare_spec zy zx); try lia. congruence. }
  assert (Hsnd : map snd (most_active s)
                 = take 5 (map recent_activity (Array_sort by_recent_activity l))).
  { rewrite Hmost, map_map. simpl. exact (fmap_take recent_activity 5 _). }
  exists s, store'. split; [exact Hsave |]. split.
  { intros na. split; [apply Hdesc |].
    rewrite Hsnd. apply StronglySorted_take, Hdesc. }
  repeat split; assumption.
Qed.

(** ** The ranking when an activity is the text 'N/A' *)

Lemma unknown_activity_compares_same a b :
  recent_activity a = NA \/ recent_activity b = NA ->
  by_recent_activity a b = Same.
Proof.
  unfold by_recent_activity.
  intros [-> | ->]; simpl; [destruct (or_zero (recent_activity b)) |
                            destruct (or_zero (recent_activity a))]; reflexivity.
Qed.

(** On the array ['N/A', 5] every two records compare [Same]. *)
Lemma pair_compares_same a b :
  recent_activity a = NA ->
  forall x y, In x [a; b] -> In y [a; b] -> by_recent_activity x y = Same.
Proof.
  intros Ha x y [<- | [<- | []]] [<- | [<- | []]];
    try (apply unknown_activity_compares_same; auto; fail).
  unfold by_recent_activity.
  destruct (recent_activity b) as [z|]; simpl; [| reflexivity].
  destruct (z =? 0)%Z; simpl; rewrite ?Z.sub_diag; reflexivity.
Qed.

(** C5. The array holds a record whose activity is 'N/A' followed by one
    with activity 5.  Whatever the engine, the comparator answers [Same]
    throughout, the array keeps its order, and [most_active] lists 'N/A'
    before 5: not in descending order of [recent_activity].  On the records
    1, 'N/A', 5 the reference engine leaves [most_active] with 1 ahead of
    5, which is descending under no reading of 'N/A'. *)
Theorem most_active_unsorted_with_NA `{SortEngine} now :
  let a := Samples.sample_stat "a" NA in
  let b := Samples.sample_stat "b" (Commits 5) in
  let c := Samples.sample_stat "c" (Commits 1) in
  (exists s store',
     saveRepositoryStats now 1%positive {[ 1%positive := [a; b] ]} = Some (s, store') /\
     most_active s = [("a", NA); ("b", Commits 5)] /\
     ~ descending (map snd (most_active s))) /\
  (exists s store',
     @saveRepositoryStats SortFacts.insertion_engine now 1%positive
       {[ 1%positive := [c; a; b] ]} = Some (s, store') /\
     most_active s = [("c", Commits 1); ("a", NA); ("b", Commits 5)] /\
     forall na, ~ descending_as na (map snd (most_active s))).
Proof.
  intros a b c. split.
  - destruct (save_sorts_in_place now 1%positive {[ 1%positive := [a; b] ]} [a; b]
                (lookup_singleton_eq _ _))
      as (s & store' & Hsave & _ & _ & _ & _ & _ & _ & _ & Hmost & _).
    rewrite (SortFacts.sort_all_same by_recent_activity [a; b]
               (pair_compares_same a b eq_refl)) in Hmost.
    exists s, store'. split; [exact Hsave |]. split; [exact Hmost |].
    rewrite Hmost. intros Hd. inversion Hd as [|? ? _ Hall]; subst.
    apply Forall_inv in Hall. simpl in Hall. lia.
  - destruct (@save_sorts_in_place SortFacts.insertion_engine now 1%positive
                {[ 1%positive := [c; a; b] ]} [c; a; b] (lookup_singleton_eq _ _))
      as (s & store' & Hsave & _ & _ & _ & _ & _ & _ & _ & Hmost & _).
    exists s, store'. split; [exact Hsave |]. split; [exact Hmost |].
    rewrite Hmost. intros na Hd. inversion Hd as [|? ? _ Hall]; subst.
    apply Forall_inv_tail, Forall_inv in Hall. simpl in Hall. lia.
Qed.

(** C10. On the same array the call sorts in place: the summary refers to
    the caller's array, and that array afterwards still lists the record
    with 'N/A' before the record with 5, as does the file written; the text
    'N/A' has not been taken for 0. *)
Theorem array_unsorted_with_NA `{SortEngine} now :
  let a := Samples.sample_stat "a" NA in
  let b := Samples.sample_stat "b" (Commits 5) in
  or_zero NA = NA /\
  exists s store',
    saveRepositoryStats now 1%positive {[ 1%positive := [a; b] ]} = Some (s, store') /\
    repositories s = 1%positive /\
    store' !! 1%positive = Some [a; b] /\
    written_repositories s store' = [a; b] /\
    ~ descending (map recent_activity [a; b]).
Proof.
  intros a b. split; [reflexivity |].
  destruct (save_sorts_in_place now 1%positive {[ 1%positive := [a; b] ]} [a; b]
              (lookup_singleton_eq _ _))
    as (s & store' & Hsave & Hrepo & Hst & Hwr & _).
  rewrite (SortFacts.sort_all_same by_recent_activity [a; b]
             (pair_compares_same a b eq_refl)) in Hst, Hwr.
  exists s, store'. repeat split; try assumption.
  intros Hd. inversion Hd as [|? ? _ Hall]; subst.
  apply Forall_inv in Hall. simpl in Hall. lia.
Qed.

(** With the reference engine the records 1, 'N/A', 5 stay as they are as
    well, the 1 ahead of the 5. *)
Lemma reference_engine_leaves_1_NA_5 :
  let l := [Samples.sample_stat "a" (Commits 1); Samples.sample_stat "b" NA;
            Samples.sample_stat "c" (Commits 5)] in
  @Array_sort SortFacts.insertion_engine _ by_recent_activity l = l /\
  ~ consistent by_recent_activity l.
Proof.
  split; [reflexivity |].
  intros Hc.
  pose proof (same_trans _ _ Hc
                (Samples.sample_stat "a" (Commits 1))
                (Samples.sample_stat "b" NA)
                (Samples.sample_stat "c" (Commits 5))) as Ht.
  simpl in Ht. specialize (Ht ltac:(auto) ltac:(auto) ltac:(auto) eq_refl eq_refl).
  discriminate Ht.
Qed.

(** saveRepositoryStats by itself leaves a record with a falsy language out
    of the tally, so the values of [by_language] add up to the number of
    records with a language, at most [total_repos]. *)
Lemma tally_skips_falsy_language `{SortEngine} now st (store : gmap ref (list stat)) l :
  store !! st = Some l ->
  Forall (fun r => language r ∉ Object_prototype) l ->
  exists s store' n,
    saveRepositoryStats now st store = Some (s, store') /\
    sum_by_language (by_language s) = Number n /\
    n = length (List.filter (fun r => truthy (language r)) l) /\
    (n <= total_repos s)%nat /\
    by_language s !! "" = None.
Proof.
  intros Hl Hplain.
  destruct (save_sorts_in_place now st store l Hl)
    as (s & store' & Hsave & _ & _ & _ & Hperm & _ & Htotal & Hby & _).
  assert (Hplain' : Forall (fun r => language r ∉ Object_prototype)
                      (Array_sort by_recent_activity l)).
  { rewrite List.Forall_forall in Hplain |- *. intros r Hr. apply Hplain.
    apply (Permutation_in r (Permutation_sym Hperm) Hr). }
  destruct (tally_languages_spec _ Hplain') as [Hlook Hsum].
  exists s, store', (length (List.filter (fun r => truthy (language r)) l)).
  rewrite Hby, Hsum, Htotal, <- (truthy_count_permutation _ _ Hperm).
  split; [exact Hsave |]. split; [reflexivity |]. split; [reflexivity |].
  split; [apply List.filter_length_le |].
  rewrite Hlook. reflexivity.
Qed.

Lemma occurrences_of_falsy k l :
  truthy k = false -> Forall (fun r => truthy (language r) = true) l ->
  occurrences k l = 0%nat.
Proof.
  intros Hk Hall. unfold occurrences.
  induction Hall as [|r l Hr _ IH]; [reflexivity |]. simpl.
  destruct (String.eqb_spec (language r) k) as [<- |]; [congruence | exact IH].
Qed.

(** C4. On the records of fetchRepositoryStats, whose language names are
    taken not to be inherited members of the tally object: every record has
    a non-empty language, "Unknown" when the listing gave none; the tally
    counts every record under its language, those without one under
    "Unknown"; and the values of [by_language] add up to [total_repos]. *)
Theorem languages_tallied_with_default `{SortEngine} o owner fuel now st
    (store : gmap ref (list stat)) stats :
  fetchRepositoryStats o owner fuel = Some stats ->
  store !! st = Some stats ->
  Forall (fun r => language r ∉ Object_prototype) stats ->
  Forall (fun r => truthy (language r) = true) stats /\
  (exists repos, stats = map (enrich o owner) repos /\
     forall r, In r repos ->
       language (enrich o owner r) = or_default (r_language r) "Unknown" /\
       (r_language r = None \/ r_language r = Some "" ->
        language (enrich o owner r) = "Unknown")) /\
  exists s store',
    saveRepositoryStats now st store = Some (s, store') /\
    total_repos s = length stats /\
    (forall k, by_language s !! k = counted (occurrences k stats)) /\
    sum_by_language (by_language s) = Number (total_repos s).
Proof.
  intros Hfetch Hst Hplain.
  destruct (fetch_records o owner fuel stats Hfetch) as [repos ->].
  assert (Htruthy : Forall (fun r => truthy (language r) = true)
                      (map (enrich o owner) repos)).
  { rewrite List.Forall_forall. intros r Hr.
    apply in_map_iff in Hr as (x & <- & _).
    rewrite language_enrich. apply or_default_truthy. reflexivity. }
  split; [exact Htruthy |]. split.
  { exists repos. split; [reflexivity |]. intros r _.
    split; [apply language_enrich |].
    rewrite language_enrich. intros [-> | ->]; reflexivity. }
  destruct (save_sorts_in_place now st store _ Hst)
    as (s & store' & Hsave & _ & _ & _ & Hperm & _ & Htotal & Hby & _).
  set (l := map (enrich o owner) repos) in *.
  assert (Hplain' : Forall (fun r => language r ∉ Object_prototype)
                      (Array_sort by_recent_activity l)).
  { rewrite List.Forall_forall in Hplain |- *. intros r Hr. apply Hplain.
    apply (Permutation_in r (Permutation_sym Hperm) Hr). }
  destruct (tally_languages_spec _ Hplain') as [Hlook Hsum].
  exists s, store'. split; [exact Hsave |]. split; [exact Htotal |]. split.
  - intros k. rewrite Hby, Hlook, <- (occurrences_permutation k _ _ Hperm).
    destruct (truthy k) eqn:Hk; [reflexivity |].
    rewrite (occurrences_of_falsy k l Hk Htruthy). reflexivity.
  - rewrite Hby, Hsum, Htotal, <- (truthy_count_permutation _ _ Hperm).
    f_equal. clear -Htruthy.
    induction Htruthy as [|r l Hr _ IH]; [reflexivity |].
    simpl. rewrite Hr. simpl. congruence.
Qed.

Lemma languages_tallied_with_default_witness :
  exists s store',
    @saveRepositoryStats SortFacts.insertion_engine "2024-01-01T00:00:00.000Z"
      1%positive
      {[ 1%positive := map (enrich Samples.sample_octokit "octocat")
                         [Samples.sample_repo "alpha" (Some "Rocq");
                          Samples.sample_repo "beta" None;
                          Samples.sample_repo "gamma" (Some "")] ]}
    = Some (s, store') /\
    sum_by_language (by_language s) = Number (total_repos s).
Proof.
  destruct (@languages_tallied_with_default SortFacts.insertion_engine
              Samples.sample_octokit "octocat" 5 "2024-01-01T00:00:00.000Z"
              1%positive
              {[ 1%positive := map (enrich Samples.sample_octokit "octocat")
                                 [Samples.sample_repo "alpha" (Some "Rocq");
                                  Samples.sample_repo "beta" None;
                                  Samples.sample_repo "gamma" (Some "")] ]}
              _ eq_refl (lookup_singleton_eq _ _))
    as (_ & _ & s & store' & Hsave & _ & _ & Hsum).
  - repeat constructor; apply (bool_decide_unpack _); vm_compute; exact I.
  - exists s, store'. split; [exact Hsave | exact Hsum].
Defined.

(** The listing of the sample client has three repositories, of which only
    one names a language.  The two others are counted all the same, under
    "Unknown", and the tally adds up to 3, not to 1. *)
Lemma missing_language_counted_as_Unknown :
  exists s store',
    fetchRepositoryStats Samples.sample_octokit "octocat" 5
    = Some (map (enrich Samples.sample_octokit "octocat")
              [Samples.sample_repo "alpha" (Some "Rocq");
               Samples.sample_repo "beta" None;
               Samples.sample_repo "gamma" (Some "")]) /\
    @saveRepositoryStats SortFacts.insertion_engine "2024-01-01T00:00:00.000Z"
      1%positive
      {[ 1%positive := map (enrich Samples.sample_octokit "octocat")
                         [Samples.sample_repo "alpha" (Some "Rocq");
                          Samples.sample_repo "beta" None;
                          Samples.sample_repo "gamma" (Some "")] ]}
    = Some (s, store') /\
    by_language s !! "Unknown" = Some (Number 2) /\
    by_language s !! "Rocq" = Some (Number 1) /\
    sum_by_language (by_language s) = Number 3 /\
    sum_by_language (by_language s) <> Number 1.
Proof.
  eexists _, _. split; [reflexivity |].
  split; [unfold saveRepositoryStats; rewrite lookup_singleton_eq; reflexivity |].
  cbn [by_language].
  assert (Hplain : Forall (fun r => language r ∉ Object_prototype)
            (@Array_sort SortFacts.insertion_engine _ by_recent_activity
               (map (enrich Samples.sample_octokit "octocat")
                  [Samples.sample_repo "alpha" (Some "Rocq");
                   Samples.sample_repo "beta" None;
                   Samples.sample_repo "gamma" (Some "")]))).
  { repeat constructor; apply (bool_decide_unpack _); vm_compute; exact I. }
  destruct (tally_languages_spec _ Hplain) as [Hlook Hsum].
  rewrite !Hlook, Hsum. repeat split. discriminate.
Qed.

End StatsFacts.

(* ===================================================================== *)
(** * Properties of the lifecycle manager *)
(* ===================================================================== *)

Module LifecycleFacts.
Import GitHub Lifecycle.

Lemma close_each_accepted o owner repo days :
  (forall c, rejects o c = None) ->
  forall stale closed done,
    close_each o owner repo days stale closed done
    = (done ++ flat_map (closing_calls owner repo days) stale,
       inr (closed ++ map (fun i => (number i, title i)) stale)).
Proof.
  intros Hok. induction stale as [|i stale IH]; intros closed done; simpl.
  - rewrite !app_nil_r. reflexivity.
  - rewrite !Hok, IH. rewrite <- !app_assoc. reflexivity.
Qed.

Lemma is_stale_spec cutoff i :
  is_stale cutoff i = true <->
  pull_request i = false /\ exists t, updated_at i = Some t /\ (t < cutoff)%Z.
Proof.
  unfold is_stale. destruct (updated_at i) as [t|].
  - rewrite andb_true_iff, negb_true_iff, Z.ltb_lt. split.
    + intros [Ht Hp]. eauto.
    + intros [Hp (t' & Heq & Ht)]. injection Heq as ->. auto.
  - split; [discriminate |]. intros [_ (t & Heq & _)]. discriminate.
Qed.

(** C6. With the default threshold, a listing that answers with [data] and
    a client that accepts the calls: the issues closed are those of [data]
    that are no pull requests and were last updated before [now] minus 30
    days, each commented and then closed as not planned, in the order of
    the listing, and no other call is made.  For issues last updated 5, 31
    and 45 days ago these are the second and the third. *)
Theorem stale_issues_closed o now owner repo data :
  listForRepo o owner repo 100 = inr data ->
  (forall c, rejects o c = None) ->
  let stale := List.filter (is_stale (now - 30 * day_ms)) data in
  closeStaleIssues o now owner repo default_daysInactive
  = (flat_map (closing_calls owner repo 30) stale,
     StaleReport repo (length stale) (length stale)
       (map (fun i => (number i, title i)) stale)) /\
  (forall i, In i stale <->
     In i data /\ pull_request i = false /\
     exists t, updated_at i = Some t /\ (t < now - 30 * day_ms)%Z) /\
  forall n5 n31 n45 t5 t31 t45 b5 b31 b45,
    let i5 := Issue n5 t5 b5 (Some (now - 5 * day_ms)) false in
    let i31 := Issue n31 t31 b31 (Some (now - 31 * day_ms)) false in
    let i45 := Issue n45 t45 b45 (Some (now - 45 * day_ms)) false in
    data = [i5; i31; i45] ->
    closeStaleIssues o now owner repo default_daysInactive
    = ([ createComment owner repo n31 (closing_comment 30);
         update owner repo n31 "closed" "not_planned";
         createComment owner repo n45 (closing_comment 30);
         update owner repo n45 "closed" "not_planned" ],
       StaleReport repo 2 2 [(n31, t31); (n45, t45)]).
Proof.
  intros Hlist Hok stale.
  assert (Hrun : closeStaleIssues o now owner repo default_daysInactive
                 = (flat_map (closing_calls owner repo 30) stale,
                    StaleReport repo (length stale) (length stale)
                      (map (fun i => (number i, title i)) stale))).
  { unfold closeStaleIssues. rewrite Hlist.
    unfold cutoffDate, default_daysInactive. fold stale.
    rewrite (close_each_accepted o owner repo 30 Hok). simpl.
    rewrite length_map. reflexivity. }
  split; [exact Hrun |]. split.
  - intros i. unfold stale. rewrite filter_In, is_stale_spec. reflexivity.
  - intros n5 n31 n45 t5 t31 t45 b5 b31 b45 i5 i31 i45 Hdata.
    rewrite Hrun. unfold stale. rewrite Hdata.
    assert (H5 : is_stale (now - 30 * day_ms) i5 = false).
    { unfold is_stale, i5, day_ms. simpl.
      destruct (Z.ltb_spec (now - 5 * 86400000) (now - 30 * 86400000)); [lia | reflexivity]. }
    assert (H31 : is_stale (now - 30 * day_ms) i31 = true).
    { unfold is_stale, i31, day_ms. simpl.
      destruct (Z.ltb_spec (now - 31 * 86400000) (now - 30 * 86400000)); [reflexivity | lia]. }
    assert (H45 : is_stale (now - 30 * day_ms) i45 = true).
    { unfold is_stale, i45, day_ms. simpl.
      destruct (Z.ltb_spec (now - 45 * 86400000) (now - 30 * 86400000)); [reflexivity | lia]. }
    cbn [List.filter]. rewrite H5, H31, H45. reflexivity.
Qed.

Lemma stale_issues_closed_witness :
  closeStaleIssues (Samples.issues_octokit (Samples.three_issues 1700000000000))
    1700000000000 "octocat" "hello" default_daysInactive
  = ([ createComment "octocat" "hello" 2 (closing_comment 30);
       update "octocat" "hello" 2 "closed" "not_planned";
       createComment "octocat" "hello" 3 (closing_comment 30);
       update "octocat" "hello" 3 "closed" "not_planned" ],
     StaleReport "hello" 2 2 [(2, "a month old"); (3, "older")]).
Proof.
  exact (proj2 (proj2 (stale_issues_closed
           (Samples.issues_octokit (Samples.three_issues 1700000000000))
           1700000000000 "octocat" "hello" (Samples.three_issues 1700000000000)
           eq_refl (fun _ => eq_refl)))
         1 2 3 "recent" "a month old" "older" None None (Some "still open") eq_refl).
Defined.

(** A failure between the comment and the closing leaves the issue
    commented and open, and ends the run for this repository. *)
Lemma comment_without_close o now owner repo i msg :
  listForRepo o owner repo 100 = inr [i] ->
  is_stale (cutoffDate now 30) i = true ->
  rejects o (createComment owner repo (number i) (closing_comment 30)) = None ->
  rejects o (update owner repo (number i) "closed" "not_planned") = Some msg ->
  closeStaleIssues o now owner repo 30
  = ([createComment owner repo (number i) (closing_comment 30)],
     StaleError repo msg).
Proof.
  intros Hlist Hstale Hc Hu. unfold closeStaleIssues. rewrite Hlist.
  simpl. rewrite Hstale. simpl. rewrite Hc, Hu. reflexivity.
Qed.

(** ** Labelling *)

Lemma matches_here_app ic pat s t :
  matches_here ic pat s = true -> matches_here ic pat (String.append s t) = true.
Proof.
  revert s. induction pat as [|p pat IH]; intros s; [reflexivity |].
  destruct s as [|c s]; simpl; [discriminate |].
  rewrite !andb_true_iff. intros [Hc Hm]. split; [exact Hc | apply IH, Hm].
Qed.

Lemma occurs_app ic pat s t :
  occurs ic pat s = true -> occurs ic pat (String.append s t) = true.
Proof.
  induction s as [|c s IH].
  - simpl. rewrite orb_false_r. intros Hm.
    destruct pat as [|p pat]; [| discriminate].
    destruct t; reflexivity.
  - intros H.
    change (matches_here ic pat (String c s) || occurs ic pat s = true) in H.
    change (matches_here ic pat (String.append (String c s) t)
            || occurs ic pat (String.append s t) = true).
    apply orb_true_iff in H as [H | H]; apply orb_true_iff.
    + left. apply matches_here_app, H.
    + right. apply IH, H.
Qed.

Lemma test_app re s t :
  test re s = true -> test re (String.append s t) = true.
Proof.
  unfold test. rewrite !existsb_exists.
  intros (w & Hw & Ho). exists w. split; [exact Hw | apply occurs_app, Ho].
Qed.

Lemma In_matchedLabels i label :
  In label (matchedLabels i) <->
  exists re, In (label, re) labelRules /\ test re (labelled_text i) = true.
Proof.
  unfold matchedLabels. rewrite in_map_iff. split.
  - intros ([l re] & <- & Hin). apply filter_In in Hin as [Hin Ht]. eauto.
  - intros (re & Hin & Ht). exists (label, re).
    split; [reflexivity |]. apply filter_In. auto.
Qed.

Lemma label_each_accepted o owner repo :
  (forall c, rejects o c = None) ->
  forall data labeled done,
    label_each o owner repo data labeled done
    = (done ++ flat_map (label_calls owner repo) data,
       inr (labeled + length (flat_map (label_calls owner repo) data))%nat).
Proof.
  intros Hok. induction data as [|i data IH]; intros labeled done; simpl.
  - rewrite app_nil_r, Nat.add_0_r. reflexivity.
  - unfold label_calls at 1 3.
    destruct (0 <? length (matchedLabels i))%nat.
    + rewrite Hok, IH. simpl. rewrite <- app_assoc. simpl.
      do 3 f_equal. lia.
    + rewrite IH. reflexivity.
Qed.

Lemma occurs_prepend ic pat pre s :
  occurs ic pat s = true -> occurs ic pat (String.append pre s) = true.
Proof.
  intros Hs. induction pre as [|c pre IH]; [exact Hs |].
  change (matches_here ic pat (String c (String.append pre s))
          || occurs ic pat (String.append pre s) = true).
  rewrite IH. apply orb_true_r.
Qed.

Lemma test_prepend re pre s :
  test re s = true -> test re (String.append pre s) = true.
Proof.
  unfold test. rewrite !existsb_exists.
  intros (w & Hw & Ho). exists w. split; [exact Hw | apply occurs_prepend, Ho].
Qed.

(** C7. With a listing that answers with [data] and a client that accepts
    the calls, every issue for which some pattern matches gets one call
    that adds all the labels whose pattern matches: a label is among them
    exactly when its pattern matches the title, a blank and the body put
    together (nothing for a body that is null), so a match in the title
    alone or in the body alone is enough.  The title "App crashes on
    startup" gets bug, "How do I configure this?" gets question, a text
    matched by two patterns gets both labels, also when one pattern matches
    only the title and the other only the body. *)
Theorem all_matching_labels_applied o owner repo data :
  listForRepo o owner repo 50 = inr data ->
  (forall c, rejects o c = None) ->
  let text := fun i : issue =>
    String.append (title i)
      (String.append " " (match body i with Some b => b | None => "" end)) in
  autoLabelIssues o owner repo
  = (flat_map (label_calls owner repo) data,
     LabelReport repo (length data)
       (length (flat_map (label_calls owner repo) data))) /\
  (forall i, In i data -> matchedLabels i <> [] ->
     In (addLabels owner repo (number i) (matchedLabels i))
        (autoLabelIssues o owner repo).1) /\
  (forall i label, In label (matchedLabels i) <->
     exists re, In (label, re) labelRules /\ test re (text i) = true) /\
  (forall i label re, In (label, re) labelRules ->
     test re (title i) = true -> In label (matchedLabels i)) /\
  (forall i b label re, In (label, re) labelRules ->
     body i = Some b -> test re b = true -> In label (matchedLabels i)) /\
  (forall n u pr,
     matchedLabels (Issue n "App crashes on startup" None u pr) = ["bug"] /\
     matchedLabels (Issue n "How do I configure this?" None u pr) = ["question"] /\
     matchedLabels (Issue n "How do I configure this? The app crashes" None u pr)
     = ["bug"; "question"] /\
     matchedLabels (Issue n "Startup" None u pr) = [] /\
     matchedLabels (Issue n "Startup" (Some "the app crashes") u pr) = ["bug"] /\
     matchedLabels (Issue n "App crashes on startup"
                      (Some "How do I configure this?") u pr)
     = ["bug"; "question"] /\
     matchedLabels (Issue n "Release notes" (Some "please add a guide") u pr)
     = ["feature"; "documentation"]) /\
  (forall n b u pr,
     In "bug" (matchedLabels (Issue n "App crashes on startup" b u pr)) /\
     In "question" (matchedLabels (Issue n "How do I configure this?" b u pr))) /\
  (forall i l1 re1 l2 re2,
     In (l1, re1) labelRules -> In (l2, re2) labelRules ->
     test re1 (text i) = true -> test re2 (text i) = true ->
     In l1 (matchedLabels i) /\ In l2 (matchedLabels i)).
Proof.
  intros Hlist Hok text.
  assert (Htext : forall i, labelled_text i = text i).
  { intros i. unfold labelled_text, text. destruct (body i); reflexivity. }
  assert (Hrun : autoLabelIssues o owner repo
                 = (flat_map (label_calls owner repo) data,
                    LabelReport repo (length data)
                      (length (flat_map (label_calls owner repo) data)))).
  { unfold autoLabelIssues. rewrite Hlist.
    rewrite (label_each_accepted o owner repo Hok). reflexivity. }
  assert (Hiff : forall i label, In label (matchedLabels i) <->
            exists re, In (label, re) labelRules /\ test re (text i) = true).
  { intros i label. rewrite <- Htext. apply In_matchedLabels. }
  split; [exact Hrun |].
  split; [| split; [exact Hiff | split; [| split; [| split; [| split]]]]].
  - intros i Hi Hne. rewrite Hrun. simpl. apply in_flat_map.
    exists i. split; [exact Hi |]. unfold label_calls.
    destruct (matchedLabels i) as [|l ls]; [congruence |]. left. reflexivity.
  - intros i label re Hin Ht. apply Hiff. exists re. split; [exact Hin |].
    unfold text. apply test_app, Ht.
  - intros i b label re Hin Hb Ht. apply Hiff. exists re. split; [exact Hin |].
    unfold text. rewrite Hb. apply test_prepend, test_prepend, Ht.
  - intros n u pr. repeat split; reflexivity.
  - intros n b u pr. split; apply Hiff.
    + exists (Regex ["bug"; "error"; "crash"; "fail"] true).
      split; [left; reflexivity |].
      unfold text. simpl title. apply test_app. reflexivity.
    + exists (Regex ["how"; "why"; "what"; "help"; "support"] true).
      split; [do 3 right; left; reflexivity |].
      unfold text. simpl title. apply test_app. reflexivity.
  - intros i l1 re1 l2 re2 H1 H2 T1 T2.
    split; apply Hiff; eauto.
Qed.

Lemma all_matching_labels_applied_witness :
  autoLabelIssues
    (Samples.issues_octokit
       [Issue 7 "App crashes on startup" (Some "How do I configure this?") None false;
        Issue 8 "Nothing to see" None None false;
        Issue 9 "Startup" (Some "the app crashes") None false])
    "octocat" "hello"
  = ([addLabels "octocat" "hello" 7 ["bug"; "question"];
      addLabels "octocat" "hello" 9 ["bug"]],
     LabelReport "hello" 3 2).
Proof.
  exact (proj1 (all_matching_labels_applied
                  (Samples.issues_octokit
                     [Issue 7 "App crashes on startup"
                        (Some "How do I configure this?") None false;
                      Issue 8 "Nothing to see" None None false;
                      Issue 9 "Startup" (Some "the app crashes") None false])
                  "octocat" "hello" _ eq_refl (fun _ => eq_refl))).
Defined.

End LifecycleFacts.

(* ===================================================================== *)
(** * Properties of the health report *)
(* ===================================================================== *)

Module HealthFacts.
Import Health.

(** The test on the linter results looks at the indices of [checks], not at
    the checks, and so never succeeds. *)
Lemma some_failed_never l : some_failed l = false.
Proof.
  unfold some_failed. induction (Object_keys (checks l)) as [|k ks IH];
    [reflexivity | exact IH].
Qed.

Lemma In_when b msg m : In m (when b msg) <-> b = true /\ m = msg.
Proof.
  destruct b; simpl; split; try tauto.
  - intros [<- | []]. auto.
  - intros [_ ->]. auto.
  - intros [H _]. discriminate.
Qed.

(** C8. The recommendations hold the critical message exactly when
    [critical > 0], the high message exactly when [high > 0], and the
    archive message exactly when more than five repositories are not
    active, that is when [total_repos - active_repos > 5]; a message occurs
    at most once and there are at most four.  For the tally
    [{critical: 1, high: 0}] the critical message is there and the high one
    is not. *)
Theorem recommendations_by_threshold now lint vuln stats :
  let recs := recommendations (generateHealthReport now lint vuln stats) in
  (In CRITICAL recs <-> (0 < critical vuln)%Z) /\
  (In HIGH recs <-> (0 < high vuln)%Z) /\
  (In ARCHIVE recs <->
     (5 < Z.of_nat (Stats.total_repos stats) - Z.of_nat (Stats.active_repos stats))%Z) /\
  List.NoDup recs /\
  (length recs <= 4)%nat /\
  (forall m l,
     let recs1 := recommendations
       (generateHealthReport now lint (SeverityTally 1 0 m l) stats) in
     In CRITICAL recs1 /\ ~ In HIGH recs1 /\ head recs1 = Some CRITICAL).
Proof.
  assert (Hgen : forall v,
    let recs := recommendations (generateHealthReport now lint v stats) in
    (In CRITICAL recs <-> (0 < critical v)%Z) /\
    (In HIGH recs <-> (0 < high v)%Z) /\
    (In ARCHIVE recs <->
       (5 < Z.of_nat (Stats.total_repos stats) - Z.of_nat (Stats.active_repos stats))%Z) /\
    List.NoDup recs /\ (length recs <= 4)%nat).
  { intros v. simpl. rewrite some_failed_never. simpl.
    rewrite !in_app_iff, !In_when, !Z.ltb_lt.
    assert (Hd : CRITICAL <> HIGH /\ CRITICAL <> ARCHIVE /\ HIGH <> ARCHIVE).
    { repeat split; discriminate. }
    destruct Hd as (H1 & H2 & H3).
    split; [| split; [| split; [| split]]].
    - intuition congruence.
    - intuition congruence.
    - intuition congruence.
    - destruct (0 <? critical v)%Z, (0 <? high v)%Z,
        (5 <? Z.of_nat (Stats.total_repos stats)
              - Z.of_nat (Stats.active_repos stats))%Z; simpl;
        repeat constructor; simpl; intuition congruence.
    - destruct (0 <? critical v)%Z, (0 <? high v)%Z,
        (5 <? Z.of_nat (Stats.total_repos stats)
              - Z.of_nat (Stats.active_repos stats))%Z; simpl; lia. }
  intros recs.
  destruct (Hgen vuln) as (Hc & Hh & Ha & Hnd & Hlen).
  split; [exact Hc |]. split; [exact Hh |]. split; [exact Ha |].
  split; [exact Hnd |]. split; [exact Hlen |].
  intros m l recs1. destruct (Hgen (SeverityTally 1 0 m l)) as (Hc1 & Hh1 & _).
  split; [apply Hc1; simpl; lia |]. split; [| reflexivity].
  intros Hin. apply Hh1 in Hin. simpl in Hin. lia.
Qed.

(** Eight repositories, two of them active: six are archived, three for
    each active one.  The ratio of archived to active repositories is not
    above 5, and yet the archive message is given; the rule compares the
    difference. *)
Lemma archive_rule_compares_difference :
  let stats := Samples.sample_summary 8 2 in
  let archived := (Stats.total_repos stats - Stats.active_repos stats)%nat in
  ~ (5 * Stats.active_repos stats < archived)%nat /\
  recommendations
    (generateHealthReport "2024-01-01T00:00:00.000Z"
       (LintResults [] 0 0 0) (SeverityTally 0 0 0 0) stats)
  = [ARCHIVE].
Proof. split; [simpl; lia | reflexivity]. Qed.

(** A check marked failed does not bring the linting message about. *)
Lemma failed_check_goes_unreported now vuln stats :
  ~ In MEDIUM
      (recommendations
         (generateHealthReport now
            (LintResults [Check "js" "failed" 3] 1 0 1) vuln stats)).
Proof.
  unfold generateHealthReport. cbn [recommendations].
  rewrite (some_failed_never (LintResults [Check "js" "failed" 3] 1 0 1)).
  rewrite !in_app_iff, !In_when.
  intros [[_ H] | [[_ H] | [[H _] | [_ H]]]]; discriminate.
Qed.

End HealthFacts.

(* ===================================================================== *)
(** * Further properties of the rotation cursor *)
(* ===================================================================== *)

Module RotationMore.
Import Rotation Facts.

Lemma rotate_persists now disk :
  persisted_index (rotateFactCategory now disk).1.2
  = Some (stored (currentIndex (rotateFactCategory now disk).1.1)).
Proof. destruct disk as [|f]; reflexivity. Qed.

Lemma rotate_category now disk :
  currentCategory (rotateFactCategory now disk).1.1
  = cycle_at (currentIndex (rotateFactCategory now disk).1.1).
Proof. destruct disk as [|f]; reflexivity. Qed.

(** The index returned lies strictly between -3 and 3, or is NaN. *)
Lemma rotate_index_range now disk :
  match currentIndex (rotateFactCategory now disk).1.1 with
  | Int z => (-2 <= z <= 2)%Z
  | NaN => True
  end.
Proof.
  assert (Hrem : forall v, match modulo_cycle (plus_one v) with
                           | Int z => (-2 <= z <= 2)%Z | NaN => True end).
  { intros v. destruct (plus_one v) as [z|]; simpl; [| exact I].
    pose proof (Z.rem_bound_abs z 3 ltac:(lia)) as Hb.
    change (Z.pos (Pos.of_succ_nat 2)) with 3%Z. lia. }
  destruct disk as [|[[|p]|]]; simpl; try lia.
  destruct (get_currentIndex p) as [v|]; [apply Hrem | lia].
Qed.

Lemma cycle_at_Some n c :
  cycle_at n = Some c <->
  exists i, n = Int i /\ valid_index i /\
            nth_error ROTATION_CYCLE (Z.to_nat i) = Some c.
Proof.
  split.
  - destruct n as [z|]; simpl; [| discriminate].
    destruct (Z.leb_spec 0 z) as [Hz|]; [| discriminate].
    intros Hn. exists z. split; [reflexivity |]. split; [| exact Hn].
    assert (Hlt : (Z.to_nat z < length ROTATION_CYCLE)%nat).
    { apply nth_error_Some. congruence. }
    simpl in Hlt. unfold valid_index. lia.
  - intros (i & -> & [Hlo Hhi] & Hn). simpl.
    destruct (Z.leb_spec 0 i); [exact Hn | lia].
Qed.

(** X1. The effects of one invocation on any disk: the directory is made
    exactly when it is absent, the state file is written once, last; the
    file then holds an object with the time of the call, the index returned
    (null for NaN), and a category exactly when that index lies in the
    cycle, namely the entry at the index. *)
Theorem rotate_effects now disk :
  let r := rotateFactCategory now disk in
  r.2 = (match disk with NoDir => [MkdirSync] | Dir _ => [] end)
        ++ [WriteFileSync (stringify (r.1.1))] /\
  r.1.2 = Dir (Some (Json (JObject
            {| doc_currentIndex := stored (currentIndex (r.1.1));
               doc_lastUpdated := Some now;
               doc_currentCategory := category_name <$> currentCategory (r.1.1) |}))) /\
  missing_or_corrupt (r.1.2) = false /\
  forall c, currentCategory (r.1.1) = Some c <->
            exists i, currentIndex (r.1.1) = Int i /\ valid_index i /\
                      nth_error ROTATION_CYCLE (Z.to_nat i) = Some c.
Proof.
  intros r. split; [| split; [| split]].
  - destruct disk as [|f]; reflexivity.
  - destruct disk as [|f]; reflexivity.
  - destruct disk as [|f]; reflexivity.
  - intros c. unfold r. rewrite rotate_category. apply cycle_at_Some.
Qed.

(** The disk after [n] invocations. *)
Lemma invocations_succ clock n disk :
  invocations clock (S n) disk
  = (Some (rotateFactCategory (clock n) (invocations clock n disk).2).1.1,
     (rotateFactCategory (clock n) (invocations clock n disk).2).1.2).
Proof.
  simpl. destruct (invocations clock n disk) as [prev d]. simpl.
  destruct (rotateFactCategory (clock n) d) as [[s d'] log]. reflexivity.
Qed.

(** After two invocations the cursor on disk is a number from -1 to 2. *)
Lemma cursor_after_two clock disk :
  exists z, persisted_index (invocations clock 2 disk).2 = Some (FNum z) /\
            (-1 <= z <= 2)%Z.
Proof.
  rewrite invocations_succ. set (d1 := (invocations clock 1 disk).2).
  assert (H1 : exists f, persisted_index d1 = Some f /\
                 (f = FNull \/ exists z, f = FNum z /\ (-2 <= z <= 2)%Z)).
  { unfold d1. rewrite invocations_succ. cbn [snd].
    rewrite rotate_persists.
    pose proof (rotate_index_range (clock 0%nat) (invocations clock 0 disk).2) as Hr.
    destruct (currentIndex _) as [z|]; eexists; (split; [reflexivity |]); eauto. }
  destruct H1 as (f & Hf & Hcase). cbn [snd]. rewrite rotate_persists.
  destruct d1 as [|[[|[|d|]]|]]; simpl in Hf; try discriminate.
  injection Hf as Hf.
  unfold rotateFactCategory, read_index. simpl get_currentIndex. rewrite Hf.
  destruct Hcase as [-> | (z & -> & Hz)]; simpl.
  - exists 1%Z. split; [reflexivity | lia].
  - exists (Z.rem (z + 1) 3). split; [reflexivity |].
    assert (Hc : (z = -2 \/ z = -1 \/ z = 0 \/ z = 1 \/ z = 2)%Z) by lia.
    destruct Hc as [-> | [-> | [-> | [-> | ->]]]]; vm_compute; split; discriminate.
Qed.

(** From the third invocation on the cursor on disk is valid. *)
Lemma cursor_valid_from_three clock disk n :
  exists i, persisted_index (invocations clock (3 + n) disk).2 = Some (FNum i) /\
            valid_index i.
Proof.
  induction n as [|n IH].
  - destruct (cursor_after_two clock disk) as (z & Hz & Hr).
    change (3 + 0)%nat with (S 2). rewrite invocations_succ. cbn [snd].
    destruct (RotationFacts.rotate_valid_from_field (clock 2%nat) _ (FNum z) Hz)
      as (i & Hi & Hv); [lia |].
    rewrite rotate_persists, Hi. eauto.
  - destruct IH as (i & Hi & Hv).
    replace (3 + S n)%nat with (S (3 + n)) by lia.
    rewrite invocations_succ. cbn [snd].
    destruct (RotationFacts.rotate_valid_from_field (clock (3 + n)%nat) _ (FNum i) Hi)
      as (j & Hj & Hvj); [unfold valid_index in Hv; lia |].
    rewrite rotate_persists, Hj. eauto.
Qed.

(** X2. The state file is missing, unparsable, or holds a document whose
    [currentIndex] is absent, null, a boolean or an integer of magnitude
    below 2^53.  Then every invocation from the third on returns an index
    of the cycle together with its category; the first two may not.  A
    fraction or a text under the key is no part of this: a cursor 0.5 is
    carried along as 1.5, 2.5, 0.5 and never meets the cycle. *)
Theorem rotation_recovers clock disk n :
  exact_cursor disk ->
  (3 <= n)%nat ->
  exists s i c,
    (invocations clock n disk).1 = Some s /\
    currentIndex s = Int i /\ valid_index i /\
    currentCategory s = Some c /\
    nth_error ROTATION_CYCLE (Z.to_nat i) = Some c /\
    exact_cursor (invocations clock n disk).2.
Proof.
  intros _ Hn.
  assert (Hprev : exists z, persisted_index (invocations clock (n - 1) disk).2
                            = Some (FNum z) /\ (-1 <= z <= 2)%Z).
  { destruct (Nat.eq_dec n 3%nat) as [-> | Hne].
    - apply cursor_after_two.
    - destruct (cursor_valid_from_three clock disk (n - 4)) as (i & Hi & Hv).
      replace (3 + (n - 4))%nat with (n - 1)%nat in Hi by lia.
      exists i. split; [exact Hi | unfold valid_index in Hv; lia]. }
  destruct Hprev as (z & Hz & Hr).
  replace n with (S (n - 1)) by lia. rewrite invocations_succ. cbn [fst snd].
  destruct (RotationFacts.rotate_valid_from_field (clock (n - 1)%nat) _ (FNum z) Hz)
    as (i & Hi & Hv); [lia |].
  destruct (RotationFacts.cycle_at_defined i Hv) as (c & Hc & _).
  eexists _, i, c. split; [reflexivity |]. split; [exact Hi |]. split; [exact Hv |].
  rewrite rotate_category, Hi. split; [exact Hc |]. split.
  - rewrite <- Hc. symmetry. apply RotationFacts.cycle_at_valid, Hv.
  - unfold exact_cursor. rewrite rotate_persists, Hi. cbn [stored].
    unfold valid_index in Hv. lia.
Qed.

Lemma rotation_recovers_witness :
  exists s, (invocations (fun _ => "2024-01-01T00:00:00.000Z") 3
               (Dir (Some (Json (JObject
                  {| doc_currentIndex := FNum (-6);
                     doc_lastUpdated := None;
                     doc_currentCategory := None |}))))).1 = Some s /\
            currentCategory s = Some LIFE.
Proof.
  destruct (rotation_recovers (fun _ => "2024-01-01T00:00:00.000Z")
              (Dir (Some (Json (JObject
                  {| doc_currentIndex := FNum (-6);
                     doc_lastUpdated := None;
                     doc_currentCategory := None |})))) 3
              ltac:(unfold exact_cursor; simpl; lia) ltac:(lia))
    as (s & i & c & Hs & Hi & _ & Hc & _).
  exists s. split; [exact Hs |].
  simpl in Hs. injection Hs as <-. reflexivity.
Defined.

(** The bound is met: from a stored index -6 the first two invocations
    return -2 and -1. *)
Lemma rotation_recovers_late :
  let disk := Dir (Some (Json (JObject
                {| doc_currentIndex := FNum (-6);
                   doc_lastUpdated := None; doc_currentCategory := None |}))) in
  (currentIndex <$> (invocations (fun _ => "") 1 disk).1) = Some (Int (-2)) /\
  (currentIndex <$> (invocations (fun _ => "") 2 disk).1) = Some (Int (-1)).
Proof. split; reflexivity. Qed.

End RotationMore.

(* ===================================================================== *)
(** * Properties of the daily fact *)
(* ===================================================================== *)

Module FactsFacts.
Import Rotation Facts.

Lemma catalog_length c : length (FACT_CATEGORIES c) = 5%nat.
Proof. destruct c; reflexivity. Qed.

(** updateDailyFact in terms of the rotation it starts with.  The
    directory exists once the rotation is done, so the function never
    makes it. *)
Lemma updateDailyFact_unfold t_rotate t_date t_stamp draw disk daily :
  let r := rotateFactCategory t_rotate disk in
  updateDailyFact t_rotate t_date t_stamp draw disk daily
  = match currentCategory (r.1.1) with
    | None => (Throws, r.1.2, daily, map Rotation_op (r.2))
    | Some c =>
        match nth_error (FACT_CATEGORIES c) draw with
        | None => (Throws, r.1.2, daily, map Rotation_op (r.2))
        | Some f =>
            let d := {| date := before_T t_date;
                        timestamp := t_stamp;
                        category_of := Some c;
                        fact_of := fact f;
                        source_of := source f;
                        rotation_cycle := ROTATION_CYCLE;
                        next_category :=
                          cycle_at (modulo_cycle (increment (currentIndex (r.1.1)))) |} in
            (Returns d, r.1.2, Some d,
             map Rotation_op (r.2) ++ [WriteFileSync_fact d])
        end
    end.
Proof.
  destruct disk as [|f0]; unfold updateDailyFact, rotateFactCategory;
    cbv zeta; cbn [fst snd currentCategory currentIndex].
  - reflexivity.
  - destruct (cycle_at (read_index f0)) as [c|]; [| reflexivity].
    cbn [getRandomFact].
    destruct (nth_error (FACT_CATEGORIES c) draw); reflexivity.
Qed.

Lemma next_of_valid i :
  valid_index i ->
  cycle_at (modulo_cycle (increment (Int i))) = cycle_at (Int ((i + 1) mod 3)).
Proof.
  intros Hi. simpl increment.
  rewrite RotationFacts.modulo_cycle_valid by (unfold valid_index in Hi; lia).
  reflexivity.
Qed.

(** The outcome of updateDailyFact on any disk: it returns exactly when
    the rotation yields a category and the draw hits the catalog.  It then
    has written the record it returns to the fact file, after the state
    file, and the record names the category of the rotation, a fact of that
    category with its source, and the date cut from the time stamp.
    Otherwise it throws after the state file has been rewritten, and the
    fact file is left as it was. *)
Lemma daily_fact_outcome t_rotate t_date t_stamp draw disk daily :
  let r := rotateFactCategory t_rotate disk in
  let u := updateDailyFact t_rotate t_date t_stamp draw disk daily in
  u.1.1.2 = r.1.2 /\
  ((exists c, currentCategory (r.1.1) = Some c /\ (draw < 5)%nat) ->
   exists d c f,
     u.1.1.1 = Returns d /\ u.1.2 = Some d /\
     u.2 = map Rotation_op (r.2) ++ [WriteFileSync_fact d] /\
     currentCategory (r.1.1) = Some c /\ category_of d = Some c /\
     nth_error (FACT_CATEGORIES c) draw = Some f /\
     In f (FACT_CATEGORIES c) /\ fact_of d = fact f /\ source_of d = source f /\
     date d = before_T t_date /\ timestamp d = t_stamp /\
     rotation_cycle d = ROTATION_CYCLE) /\
  (~ (exists c, currentCategory (r.1.1) = Some c /\ (draw < 5)%nat) ->
   u.1.1.1 = Throws /\ u.1.2 = daily /\ u.2 = map Rotation_op (r.2)).
Proof.
  intros r u. unfold u. rewrite updateDailyFact_unfold. fold r.
  destruct (currentCategory (r.1.1)) as [c|] eqn:Hc.
  - destruct (nth_error (FACT_CATEGORIES c) draw) as [f|] eqn:Hf.
    + split; [reflexivity |]. split.
      * intros _. eexists _, c, f. cbn [fst snd].
        repeat split;
          first [reflexivity | exact Hf | apply (nth_error_In _ _ Hf)].
      * intros Hno. exfalso. apply Hno. exists c. split; [reflexivity |].
        rewrite <- (catalog_length c). apply nth_error_Some. congruence.
    + split; [reflexivity |]. split.
      * intros (c' & Hc' & Hd). exfalso.
        apply nth_error_None in Hf. rewrite catalog_length in Hf. lia.
      * intros _. repeat split; reflexivity.
  - split; [reflexivity |]. split.
    + intros (c' & Hc' & _). discriminate.
    + intros _. repeat split; reflexivity.
Qed.

(** X3. From a disk on which the rotation yields a category, and with a draw
    that hits the catalog, updateDailyFact returns a record that it has
    written to the fact file after the state file: it names the category
    of the rotation, a fact of that category with its source, the date cut
    from the time stamp, and as [next_category] the entry of the cycle that
    follows. *)
Theorem daily_fact_returns t_rotate t_date t_stamp draw disk daily c :
  currentCategory (rotateFactCategory t_rotate disk).1.1 = Some c ->
  (draw < 5)%nat ->
  let r := rotateFactCategory t_rotate disk in
  let u := updateDailyFact t_rotate t_date t_stamp draw disk daily in
  exists d f i,
    u.1.1.1 = Returns d /\ u.1.2 = Some d /\ u.1.1.2 = r.1.2 /\
    u.2 = map Rotation_op (r.2) ++ [WriteFileSync_fact d] /\
    category_of d = Some c /\
    nth_error (FACT_CATEGORIES c) draw = Some f /\ In f (FACT_CATEGORIES c) /\
    fact_of d = fact f /\ source_of d = source f /\
    date d = before_T t_date /\ timestamp d = t_stamp /\
    rotation_cycle d = ROTATION_CYCLE /\
    currentIndex (r.1.1) = Int i /\ valid_index i /\
    next_category d = nth_error ROTATION_CYCLE (Z.to_nat ((i + 1) mod 3)) /\
    is_Some (next_category d).
Proof.
  intros Hc Hdraw r u.
  destruct (daily_fact_outcome t_rotate t_date t_stamp draw disk daily)
    as (Hdisk & Hret & _).
  destruct Hret as (d & c' & f & Hr & Hw & Hlog & Hc' & Hcd & Hn & Hin & Hf & Hs
                      & Hdate & Hts & Hcyc).
  { exists c. split; [exact Hc | exact Hdraw]. }
  assert (c' = c) by congruence. subst c'.
  pose proof (RotationMore.rotate_category t_rotate disk) as Hk.
  rewrite Hc in Hk. symmetry in Hk.
  apply RotationMore.cycle_at_Some in Hk as (i & Hi & Hv & _).
  assert (Hnext : next_category d = cycle_at (Int ((i + 1) mod 3))).
  { rewrite <- (next_of_valid i Hv), <- Hi.
    pose proof Hr as Hr'. cbv zeta in Hr'.
    rewrite updateDailyFact_unfold in Hr'. cbv zeta in Hr'. rewrite Hc in Hr'.
    destruct (nth_error (FACT_CATEGORIES c) draw); cbn [fst] in Hr'; [| discriminate].
    injection Hr' as <-. reflexivity. }
  assert (Hn1 : next_category d
                = nth_error ROTATION_CYCLE (Z.to_nat ((i + 1) mod 3))).
  { rewrite Hnext. apply RotationFacts.cycle_at_valid, RotationFacts.mod_valid. }
  assert (Hn2 : is_Some (next_category d)).
  { rewrite Hnext.
    destruct (RotationFacts.cycle_at_defined _ (RotationFacts.mod_valid (i + 1)))
      as (c2 & -> & _). eauto. }
  exists d, f, i. unfold u, r. cbv zeta in Hr, Hw, Hdisk, Hlog.
  split; [exact Hr |]. split; [exact Hw |]. split; [exact Hdisk |].
  split; [exact Hlog |]. split; [exact Hcd |]. split; [exact Hn |].
  split; [exact Hin |]. split; [exact Hf |]. split; [exact Hs |].
  split; [exact Hdate |]. split; [exact Hts |]. split; [exact Hcyc |].
  split; [exact Hi |]. split; [exact Hv |]. split; [exact Hn1 | exact Hn2].
Qed.

Lemma daily_fact_returns_witness :
  exists d,
    (updateDailyFact "t" "2024-03-05T10:20:30.000Z" "t" 2
       (Dir (Some (Json (JObject
          {| doc_currentIndex := FNum 0; doc_lastUpdated := None;
             doc_currentCategory := None |})))) None).1.1.1 = Returns d /\
    category_of d = Some PEOPLE /\ date d = "2024-03-05".
Proof.
  destruct (daily_fact_returns "t" "2024-03-05T10:20:30.000Z" "t" 2
     (Dir (Some (Json (JObject
        {| doc_currentIndex := FNum 0; doc_lastUpdated := None;
           doc_currentCategory := None |})))) None PEOPLE eq_refl ltac:(lia))
    as (d & f & i & Hd & _ & _ & _ & Hc & _ & _ & _ & _ & Hdate & _).
  exists d. split; [exact Hd |]. split; [exact Hc | exact Hdate].
Defined.

(** X4. A state file from which the rotation draws no category makes
    updateDailyFact throw: the state file has been rewritten by then, once,
    the fact file is untouched, and the next call finds the cursor that was
    written. *)
Theorem daily_fact_fails_after_rotation t_rotate t_date t_stamp draw disk daily :
  currentCategory (rotateFactCategory t_rotate disk).1.1 = None ->
  let r := rotateFactCategory t_rotate disk in
  let u := updateDailyFact t_rotate t_date t_stamp draw disk daily in
  u.1.1.1 = Throws /\
  u.1.2 = daily /\
  u.1.1.2 = Dir (Some (stringify (r.1.1))) /\
  omap (fun o => match o with Rotation_op (WriteFileSync f) => Some f | _ => None end)
       (u.2) = [stringify (r.1.1)] /\
  (forall d, ~ In (WriteFileSync_fact d) (u.2)) /\
  persisted_index (u.1.1.2) = Some (stored (currentIndex (r.1.1))).
Proof.
  intros Hc r u. unfold u. rewrite updateDailyFact_unfold. fold r.
  unfold r in *. rewrite Hc. cbn [fst snd].
  destruct (RotationFacts.rotate_writes_once t_rotate disk) as [Hw Hd].
  cbv zeta in Hw, Hd.
  split; [reflexivity |]. split; [reflexivity |]. split; [exact Hd |].
  split; [| split].
  - destruct disk as [|f0]; reflexivity.
  - intros d Hin. apply in_map_iff in Hin as (o & Ho & _). discriminate.
  - apply RotationMore.rotate_persists.
Qed.

Lemma daily_fact_fails_after_rotation_witness :
  (updateDailyFact "t" "t" "t" 0
     (Dir (Some (Json (JObject
        {| doc_currentIndex := FMissing; doc_lastUpdated := None;
           doc_currentCategory := None |}))))
     None).1.1.1 = Throws.
Proof.
  exact (proj1 (daily_fact_fails_after_rotation "t" "t" "t" 0
     (Dir (Some (Json (JObject
        {| doc_currentIndex := FMissing; doc_lastUpdated := None;
           doc_currentCategory := None |}))))
     None eq_refl)).
Defined.

(** X5. updateDailyFact never makes the directory itself and never writes the
    fact file more than once; the only directory made is the one
    rotateFactCategory makes when there is none. *)
Theorem daily_fact_never_makes_directory t_rotate t_date t_stamp draw disk daily :
  let u := updateDailyFact t_rotate t_date t_stamp draw disk daily in
  ~ In MkdirSync_data (u.2) /\
  (In (Rotation_op MkdirSync) (u.2) <-> disk = NoDir) /\
  (length (List.filter (fun o => match o with WriteFileSync_fact _ => true | _ => false end)
             (u.2)) <= 1)%nat /\
  exists f, u.1.1.2 = Dir (Some f).
Proof.
  intros u. unfold u. rewrite updateDailyFact_unfold.
  assert (Hlog : forall disk0,
            (rotateFactCategory t_rotate disk0).2
            = (match disk0 with NoDir => [MkdirSync] | Dir _ => [] end)
              ++ [WriteFileSync (stringify (rotateFactCategory t_rotate disk0).1.1)]).
  { intros [|f0]; reflexivity. }
  assert (Hdir : exists f, (rotateFactCategory t_rotate disk).1.2 = Dir (Some f)).
  { destruct disk as [|f0]; eexists; reflexivity. }
  set (r := rotateFactCategory t_rotate disk) in *.
  assert (Hmk : In (Rotation_op MkdirSync) (map Rotation_op (r.2)) <-> disk = NoDir).
  { unfold r. rewrite Hlog. destruct disk as [|f0]; simpl.
    - split; auto.
    - split; [intros [H | []]; discriminate | discriminate]. }
  assert (Hno : ~ In MkdirSync_data (map Rotation_op (r.2))).
  { intros Hin. apply in_map_iff in Hin as (o & Ho & _). discriminate. }
  assert (Hnw : List.filter (fun o => match o with WriteFileSync_fact _ => true | _ => false end)
                  (map Rotation_op (r.2)) = []).
  { clear. generalize (r.2). intros l.
    induction l as [|o l IH]; [reflexivity | exact IH]. }
  destruct (currentCategory (r.1.1)) as [c|];
    [destruct (nth_error (FACT_CATEGORIES c) draw) as [f|] |];
    cbn [fst snd]; cbv zeta.
  - split; [| split; [| split; [| exact Hdir]]].
    + rewrite in_app_iff. intros [H | [H | []]]; [auto | discriminate].
    + rewrite in_app_iff, Hmk. split; [intros [H | [H | []]]; [exact H | discriminate] | auto].
    + rewrite List.filter_app, Hnw. simpl. lia.
  - split; [exact Hno |]. split; [exact Hmk |]. split; [rewrite Hnw; simpl; lia | exact Hdir].
  - split; [exact Hno |]. split; [exact Hmk |]. split; [rewrite Hnw; simpl; lia | exact Hdir].
Qed.

(** X6. Two calls in a row: when the first returns and the second draw hits
    the catalog, the second returns, and its category is the one the first
    announced as [next_category]. *)
Theorem next_category_is_kept t1 t2 td1 ts1 td2 ts2 draw1 draw2 disk daily :
  let u1 := updateDailyFact t1 td1 ts1 draw1 disk daily in
  let u2 := updateDailyFact t2 td2 ts2 draw2 (u1.1.1.2) (u1.1.2) in
  (exists d1, u1.1.1.1 = Returns d1) ->
  (draw2 < 5)%nat ->
  exists d1 d2 c,
    u1.1.1.1 = Returns d1 /\ u2.1.1.1 = Returns d2 /\
    next_category d1 = Some c /\ category_of d2 = Some c /\
    category_of d1 <> category_of d2.
Proof.
  intros u1 u2 [d1 Hd1] Hdraw.
  pose proof (daily_fact_outcome t1 td1 ts1 draw1 disk daily) as H1.
  cbv zeta in H1. fold u1 in H1. destruct H1 as (Hdisk1 & Hret1 & Hthrow1).
  set (r1 := rotateFactCategory t1 disk) in *.
  assert (Hcat : exists c, currentCategory (r1.1.1) = Some c /\ (draw1 < 5)%nat).
  { destruct (currentCategory (r1.1.1)) as [c|] eqn:Hc.
    - destruct (Nat.lt_ge_cases draw1 5) as [Hlt | Hge]; [eauto |].
      destruct Hthrow1 as (Ht & _); [intros (c' & _ & Hlt); lia |]. congruence.
    - destruct Hthrow1 as (Ht & _); [intros (c' & Hc' & _); discriminate |]. congruence. }
  destruct (Hret1 Hcat) as (d & c1 & f1 & Hr & _ & _ & Hc1 & Hcd & _).
  assert (d = d1) by congruence. subst d.
  pose proof (RotationMore.rotate_category t1 disk) as Hk. fold r1 in Hk.
  rewrite Hc1 in Hk. symmetry in Hk.
  apply RotationMore.cycle_at_Some in Hk as (i & Hi & Hv & Hn).
  assert (Hp : persisted_index (u1.1.1.2) = Some (FNum i)).
  { rewrite Hdisk1. unfold r1. rewrite RotationMore.rotate_persists.
    fold r1. rewrite Hi. reflexivity. }
  assert (Hnext : next_category d1 = cycle_at (Int ((i + 1) mod 3))).
  { unfold u1 in Hr. rewrite updateDailyFact_unfold in Hr. fold r1 in Hr.
    rewrite Hc1 in Hr.
    destruct (nth_error (FACT_CATEGORIES c1) draw1); cbn [fst] in Hr; [| discriminate].
    injection Hr as <-. cbn [next_category]. rewrite Hi. apply next_of_valid, Hv. }
  destruct (RotationFacts.rotate_step t2 (u1.1.1.2) i Hp Hv) as (Hi2 & _ & Hc2 & _).
  destruct (RotationFacts.cycle_at_defined _ (RotationFacts.mod_valid (i + 1)))
    as (c2 & Hcyc & _).
  pose proof (daily_fact_outcome t2 td2 ts2 draw2 (u1.1.1.2) (u1.1.2)) as H2.
  cbv zeta in H2. fold u2 in H2. destruct H2 as (_ & Hret2 & _).
  destruct Hret2 as (d2 & c & f2 & Hr2 & _ & _ & Hcc & Hcd2 & _).
  { exists c2. split; [| exact Hdraw]. rewrite Hc2. exact Hcyc. }
  exists d1, d2, c2.
  assert (c = c2) by congruence. subst c.
  split; [exact Hr |]. split; [exact Hr2 |]. split; [congruence |].
  split; [exact Hcd2 |].
  rewrite Hcd, Hcd2. intros Heq. injection Heq as ->.
  rewrite (RotationFacts.cycle_at_valid _ (RotationFacts.mod_valid (i + 1))) in Hcyc.
  assert (Hcase : (i = 0 \/ i = 1 \/ i = 2)%Z) by (unfold valid_index in Hv; lia).
  destruct Hcase as [-> | [-> | ->]]; simpl in Hn, Hcyc; congruence.
Qed.

Lemma next_category_is_kept_witness :
  exists d1 d2,
    (updateDailyFact "t" "t" "t" 0 NoDir None).1.1.1 = Returns d1 /\
    (updateDailyFact "t" "t" "t" 4
       (updateDailyFact "t" "t" "t" 0 NoDir None).1.1.2
       (updateDailyFact "t" "t" "t" 0 NoDir None).1.2).1.1.1 = Returns d2 /\
    category_of d2 = next_category d1.
Proof.
  destruct (next_category_is_kept "t" "t" "t" "t" "t" "t" 0 4 NoDir None
              (ex_intro _ _ eq_refl) ltac:(lia))
    as (d1 & d2 & c & H1 & H2 & Hn & Hc & _).
  exists d1, d2. split; [exact H1 |]. split; [exact H2 |]. congruence.
Defined.

End FactsFacts.

(* ===================================================================== *)
(** * Further properties of the statistics collector *)
(* ===================================================================== *)

Module StatsMore.
Import GitHub Stats.

(** ** The pagination loop *)

Lemma paginate_keeps_running o owner :
  (forall p, (1 <= p)%nat ->
     exists r data, listForUser o (request owner p) = Some (r :: data)) ->
  forall fuel page repos sent, (1 <= page)%nat ->
    paginate o owner fuel page repos sent = None.
Proof.
  intros Hfull. induction fuel as [|fuel IH]; intros page repos sent Hp;
    [reflexivity |].
  simpl. destruct (Hfull page Hp) as (r & data & ->). simpl.
  apply IH. lia.
Qed.

(** X7. A listing that answers every page with at least one repository keeps
    the loop going for ever: fetchRepositoryStats does not return, however
    many iterations it is given. *)
Theorem pagination_needs_an_empty_page o owner fuel :
  (forall p, (1 <= p)%nat ->
     exists r data, listForUser o (request owner p) = Some (r :: data)) ->
  paginate o owner fuel 1 [] [] = None /\
  fetchRepositoryStats o owner fuel = None.
Proof.
  intros Hfull.
  assert (Hp : paginate o owner fuel 1 [] [] = None)
    by (apply paginate_keeps_running; [exact Hfull | lia]).
  split; [exact Hp |]. unfold fetchRepositoryStats. rewrite Hp. reflexivity.
Qed.

Lemma pagination_needs_an_empty_page_witness :
  fetchRepositoryStats MoreSamples.endless_octokit "octocat" 1000 = None.
Proof.
  apply (pagination_needs_an_empty_page MoreSamples.endless_octokit "octocat" 1000).
  intros p _. simpl. eauto.
Defined.

Lemma paginate_rejected o owner : forall d page repos sent,
  listForUser o (request owner (page + d)) = None ->
  (forall j, (j < d)%nat ->
     exists r data, listForUser o (request owner (page + j)) = Some (r :: data)) ->
  forall fuel, (d < fuel)%nat ->
    paginate o owner fuel page repos sent
    = Some (sent ++ map (request owner) (seq page (S d)), inr tt).
Proof.
  induction d as [|d IH]; intros page repos sent Hrej Hfull fuel Hf.
  - rewrite Nat.add_0_r in Hrej. destruct fuel as [|fuel]; [lia |].
    simpl. rewrite Hrej. reflexivity.
  - destruct fuel as [|fuel]; [lia |]. simpl.
    destruct (Hfull 0%nat ltac:(lia)) as (r & data & Hpage).
    rewrite Nat.add_0_r in Hpage. rewrite Hpage. simpl.
    rewrite (IH (S page)); try lia.
    + rewrite <- app_assoc. reflexivity.
    + replace (S page + d)%nat with (page + S d)%nat by lia. exact Hrej.
    + intros j Hj. replace (S page + j)%nat with (page + S j)%nat by lia.
      apply Hfull. lia.
Qed.

(** X8. When the request for page [k] is rejected after [k-1] pages with
    repositories, the loop stops there and fetchRepositoryStats returns the
    empty list: the pages already received are dropped, and no commit
    activity is asked for. *)
Theorem rejected_page_drops_the_listing o owner k fuel :
  (1 <= k <= fuel)%nat ->
  listForUser o (request owner k) = None ->
  (forall j, (1 <= j < k)%nat ->
     exists r data, listForUser o (request owner j) = Some (r :: data)) ->
  paginate o owner fuel 1 [] [] = Some (map (request owner) (seq 1 k), inr tt) /\
  fetchRepositoryStats o owner fuel = Some [].
Proof.
  intros Hk Hrej Hfull.
  assert (Hp : paginate o owner fuel 1 [] []
               = Some (map (request owner) (seq 1 k), inr tt)).
  { rewrite (paginate_rejected o owner (k - 1) 1 [] []); try lia.
    - replace (S (k - 1)) with k by lia. reflexivity.
    - replace (1 + (k - 1))%nat with k by lia. exact Hrej.
    - intros j Hj. apply Hfull. lia. }
  split; [exact Hp |]. unfold fetchRepositoryStats. rewrite Hp. reflexivity.
Qed.

Lemma rejected_page_drops_the_listing_witness :
  fetchRepositoryStats MoreSamples.broken_octokit "octocat" 10 = Some [].
Proof.
  apply (rejected_page_drops_the_listing MoreSamples.broken_octokit "octocat" 2 10).
  - lia.
  - reflexivity.
  - intros j Hj. assert (j = 1%nat) as -> by lia. simpl. eauto.
Defined.

(** ** The commit activity of a record *)

Lemma sum_totals_from (weeks : list Z) (acc : Z) :
  fold_left Z.add weeks acc = (acc + sum_totals weeks)%Z.
Proof.
  unfold sum_totals. revert acc.
  induction weeks as [|w weeks IH]; intros acc; cbn [fold_left]; [lia |].
  rewrite (IH (acc + w)%Z), (IH (0 + w)%Z). lia.
Qed.

Lemma sum_totals_app (a b : list Z) :
  sum_totals (a ++ b) = (sum_totals a + sum_totals b)%Z.
Proof.
  unfold sum_totals at 1. rewrite fold_left_app, sum_totals_from.
  fold (sum_totals a). lia.
Qed.

Lemma sum_totals_nonneg (weeks : list Z) :
  Forall (fun w => (0 <= w)%Z) weeks -> (0 <= sum_totals weeks)%Z.
Proof.
  induction 1 as [|w weeks Hw _ IH]; [reflexivity |].
  change (w :: weeks) with ([w] ++ weeks). rewrite sum_totals_app.
  unfold sum_totals at 1. simpl. lia.
Qed.

(** X9. When the commit activity of a repository is received, its record
    carries two numbers: [total_commits] adds up all the weeks and
    [recent_activity] the last four of them, all of them when there are no
    more than four.  With weekly totals that are not negative the recent
    activity lies between 0 and the total. *)
Theorem recent_activity_within_total o owner r weeks :
  getCommitActivityData o owner (r_name r) = Some weeks ->
  Forall (fun w => (0 <= w)%Z) weeks ->
  exists total recent,
    total_commits (enrich o owner r) = Commits total /\
    recent_activity (enrich o owner r) = Commits recent /\
    total = sum_totals weeks /\
    recent = sum_totals (drop (length weeks - 4) weeks) /\
    (length (drop (length weeks - 4) weeks) = Nat.min 4 (length weeks)) /\
    (0 <= recent <= total)%Z /\
    ((length weeks <= 4)%nat -> recent = total).
Proof.
  intros Hdata Hpos. unfold enrich. rewrite Hdata. cbn [total_commits recent_activity to_stat].
  eexists _, _. split; [reflexivity |]. split; [reflexivity |].
  split; [reflexivity |]. split; [reflexivity |]. unfold last_four.
  split; [rewrite length_drop; lia |]. split.
  - assert (Htot : sum_totals weeks
                   = (sum_totals (take (length weeks - 4) weeks)
                      + sum_totals (drop (length weeks - 4) weeks))%Z).
    { rewrite <- sum_totals_app, take_drop. reflexivity. }
    assert (H1 : (0 <= sum_totals (take (length weeks - 4) weeks))%Z).
    { apply sum_totals_nonneg. apply Forall_take, Hpos. }
    assert (H2 : (0 <= sum_totals (drop (length weeks - 4) weeks))%Z).
    { apply sum_totals_nonneg. apply Forall_drop, Hpos. }
    lia.
  - intros Hlen. replace (length weeks - 4)%nat with 0%nat by lia. reflexivity.
Qed.

Lemma recent_activity_within_total_witness :
  recent_activity (enrich MoreSamples.broken_octokit "octocat"
                     (Samples.sample_repo "alpha" None)) = Commits 18.
Proof.
  destruct (recent_activity_within_total MoreSamples.broken_octokit "octocat"
              (Samples.sample_repo "alpha" None) [1; 2; 3; 4; 5; 6]%Z eq_refl)
    as (total & recent & _ & Hr & _ & -> & _).
  - repeat constructor; lia.
  - exact Hr.
Defined.

(** X10. A listing whose page [n] is empty and whose earlier pages are
    answered has a first empty page [k].  With fuel for [k] requests
    fetchRepositoryStats returns one record for each repository of the
    pages 1 to [k-1], in the order of the listing, each with the name,
    stars and archive flag of its repository.  A record has 'N/A' for its
    recent activity exactly when the commit activity of its own repository
    could not be had, and then for its total as well; the other records are
    not affected, and no field is left empty where the script gives a
    default. *)
Theorem enrichment_is_per_repository o owner n :
  (1 <= n)%nat ->
  listForUser o (request owner n) = Some [] ->
  (forall j, (1 <= j < n)%nat -> is_Some (listForUser o (request owner j))) ->
  exists k,
    (1 <= k <= n)%nat /\
    listForUser o (request owner k) = Some [] /\
    (forall j, (1 <= j < k)%nat -> page_data o owner j <> []) /\
    let listed := concat (map (page_data o owner) (seq 1 (k - 1))) in
    forall fuel, (k <= fuel)%nat ->
      exists stats,
        fetchRepositoryStats o owner fuel = Some stats /\
        length stats = length listed /\
        map name stats = map r_name listed /\
        Forall2 (fun r s =>
                   name s = r_name r /\
                   (recent_activity s = NA <->
                    getCommitActivityData o owner (r_name r) = None) /\
                   (total_commits s = NA <-> recent_activity s = NA) /\
                   truthy (language s) = true /\ truthy (description s) = true /\
                   stars s = r_stargazers_count r /\ is_archived s = r_archived r)
                listed stats.
Proof.
  intros Hn Hempty Hans.
  destruct (StatsFacts.paginate_reaches_empty o owner (n - 1) 1 [] [])
    as (k & Hk & Hke & Hne & Hrun).
  { replace (1 + (n - 1))%nat with n by lia. exact Hempty. }
  { intros j Hj. apply Hans. lia. }
  exists (S k). split; [lia |]. split; [exact Hke |]. split.
  { intros j Hj. replace j with (1 + (j - 1))%nat by lia. apply Hne. lia. }
  replace (S k - 1)%nat with k by lia. intros listed fuel Hf.
  exists (map (enrich o owner) listed).
  split; [| split; [| split]].
  - unfold fetchRepositoryStats. rewrite Hrun by lia. reflexivity.
  - apply length_map.
  - rewrite map_map. apply map_ext. intros r. unfold enrich.
    destruct (getCommitActivityData o owner (r_name r)); reflexivity.
  - generalize listed. clear. intros repos.
    induction repos as [|r repos IH]; simpl; [constructor |].
    constructor; [| exact IH].
    unfold enrich.
    destruct (getCommitActivityData o owner (r_name r)) as [weeks|] eqn:Hw;
      cbn [name recent_activity total_commits language description stars
           is_archived to_stat];
      repeat split; try discriminate; try reflexivity;
      try (apply StatsFacts.or_default_truthy; reflexivity).
Qed.

Lemma enrichment_is_per_repository_witness :
  exists stats,
    fetchRepositoryStats Samples.sample_octokit "octocat" 5 = Some stats /\
    map name stats = ["alpha"; "beta"; "gamma"] /\
    map recent_activity stats = [Commits 7; NA; NA].
Proof.
  destruct (enrichment_is_per_repository Samples.sample_octokit "octocat" 4
              ltac:(lia) eq_refl)
    as (k & Hk & _ & _ & Hrun).
  - intros j Hj. destruct j as [|[|[|j]]]; simpl; eauto.
  - destruct (Hrun 5%nat ltac:(lia)) as (stats & Hfetch & _).
    exists stats. split; [exact Hfetch |].
    simpl in Hfetch. injection Hfetch as <-. split; reflexivity.
Defined.

End StatsMore.

(* ===================================================================== *)
(** * Further properties of the statistics summary *)
(* ===================================================================== *)

Module SummaryFacts.
Import GitHub Stats.

Lemma fold_left_sum {A} (f : A -> Z) (l : list A) (acc : Z) :
  fold_left (fun sum r => (sum + f r)%Z) l acc = (acc + sum_totals (map f l))%Z.
Proof.
  revert acc. induction l as [|x l IH]; intros acc; simpl.
  - unfold sum_totals. simpl. lia.
  - rewrite IH. change (f x :: map f l) with ([f x] ++ map f l).
    rewrite StatsMore.sum_totals_app. unfold sum_totals at 2. simpl. lia.
Qed.

Lemma sum_totals_permutation (a b : list Z) :
  Permutation a b -> sum_totals a = sum_totals b.
Proof.
  assert (Hcons : forall x l, sum_totals (x :: l) = (x + sum_totals l)%Z).
  { intros x l. change (x :: l) with ([x] ++ l).
    rewrite StatsMore.sum_totals_app. reflexivity. }
  induction 1 as [| x l l' _ IH | x y l | l l' l'' _ IH1 _ IH2].
  - reflexivity.
  - rewrite !Hcons, IH. reflexivity.
  - rewrite !Hcons. lia.
  - congruence.
Qed.

Lemma filter_length_permutation {A} (f : A -> bool) (l l' : list A) :
  Permutation l l' -> length (List.filter f l) = length (List.filter f l').
Proof.
  induction 1 as [| x l l' _ IH | x y l | l l' l'' _ IH1 _ IH2];
    simpl; try reflexivity.
  - destruct (f x); simpl; congruence.
  - destruct (f x), (f y); reflexivity.
  - congruence.
Qed.

(** X11. saveRepositoryStats sorts the array it is handed where it lies.  The
    summary does not hold a copy: [repositories] is the reference it was
    given.  Behind that reference the store holds, after the call, the same
    records in a new order, none added, dropped or altered, and every other
    array of the store is as it was. *)
Theorem sort_is_in_place `{SortEngine} now st (store : gmap ref (list stat)) l :
  store !! st = Some l ->
  exists s store' l',
    saveRepositoryStats now st store = Some (s, store') /\
    repositories s = st /\
    store' = <[st := l']> store /\
    store' !! st = Some l' /\
    written_repositories s store' = l' /\
    Permutation l l' /\
    length l' = length l /\
    (forall r, In r l' <-> In r l) /\
    (forall other, other <> st -> store' !! other = store !! other) /\
    dom store' = dom store.
Proof.
  intros Hl.
  destruct (StatsFacts.save_sorts_in_place now st store l Hl)
    as (s & store' & Hsave & Hrepo & Hst & Hwr & Hperm & Hother & _).
  exists s, store', (Array_sort by_recent_activity l).
  assert (Hstore : store' = <[st := Array_sort by_recent_activity l]> store).
  { unfold saveRepositoryStats in Hsave. rewrite Hl in Hsave.
    injection Hsave as _ <-. reflexivity. }
  split; [exact Hsave |]. split; [exact Hrepo |]. split; [exact Hstore |].
  split; [exact Hst |]. split; [exact Hwr |]. split; [exact Hperm |].
  split; [symmetry; apply Permutation_length, Hperm |]. split.
  - intros r. split; intros Hr.
    + apply (Permutation_in r (Permutation_sym Hperm) Hr).
    + apply (Permutation_in r Hperm Hr).
  - split; [exact Hother |].
    rewrite Hstore. apply set_eq. intros k.
    rewrite dom_insert_L, elem_of_union, elem_of_singleton, !elem_of_dom.
    split; [intros [-> | Hk]; [rewrite Hl; eauto | exact Hk] | auto].
Qed.

Lemma sort_is_in_place_witness :
  exists s store',
    @saveRepositoryStats SortFacts.insertion_engine "t" 1%positive
      {[ 1%positive := [MoreSamples.sample_record "a" false 1;
                         MoreSamples.sample_record "b" false 7] ]}
    = Some (s, store') /\ repositories s = 1%positive.
Proof.
  destruct (@sort_is_in_place SortFacts.insertion_engine "t" 1%positive
              {[ 1%positive := [MoreSamples.sample_record "a" false 1;
                                 MoreSamples.sample_record "b" false 7] ]}
              _ (lookup_singleton_eq _ _))
    as (s & store' & l' & Hsave & Hrepo & _).
  exists s, store'. split; [exact Hsave | exact Hrepo].
Defined.

(** X12. The figures of the summary agree with the array as the call leaves it,
    which is the array the file shows: the number of records, the number of
    records not archived, the sums of stars and forks, the first five
    records as [most_active] and the language tally.  Not more records
    count as active than there are, and [most_active] has five entries or
    as many as there are records. *)
Theorem summary_matches_array `{SortEngine} now st (store : gmap ref (list stat)) l :
  store !! st = Some l ->
  exists s store' l',
    saveRepositoryStats now st store = Some (s, store') /\
    written_repositories s store' = l' /\
    timestamp s = now /\
    total_repos s = length l' /\
    active_repos s = length (List.filter (fun r => negb (is_archived r)) l') /\
    (active_repos s
     + length (List.filter (fun r => is_archived r) l') = total_repos s)%nat /\
    (active_repos s <= total_repos s)%nat /\
    total_stars s = sum_totals (map stars l') /\
    total_forks s = sum_totals (map forks l') /\
    most_active s = map (fun r => (name r, recent_activity r)) (take 5 l') /\
    length (most_active s) = Nat.min 5 (total_repos s) /\
    by_language s = tally_languages l'.
Proof.
  intros Hl.
  destruct (StatsFacts.save_sorts_in_place now st store l Hl)
    as (s & store' & Hsave & _ & _ & Hwr & Hperm & _ & Htotal & Hby & Hmost & _).
  set (l' := Array_sort by_recent_activity l) in *.
  assert (Hfields : timestamp s = now /\
            active_repos s = length (List.filter (fun r => negb (is_archived r)) l) /\
            total_stars s = sum_totals (map stars l) /\
            total_forks s = sum_totals (map forks l)).
  { unfold saveRepositoryStats in Hsave. rewrite Hl in Hsave.
    injection Hsave as <- _. cbn [timestamp active_repos total_stars total_forks].
    rewrite !fold_left_sum. repeat split; lia. }
  destruct Hfields as (Hts & Hact & Hstars & Hforks).
  assert (Hlen : length l' = length l) by (symmetry; apply Permutation_length, Hperm).
  assert (Hact' : active_repos s
                  = length (List.filter (fun r => negb (is_archived r)) l')).
  { rewrite Hact. apply filter_length_permutation, Hperm. }
  assert (Hsplit : forall l0 : list stat,
            (length (List.filter (fun r => negb (is_archived r)) l0)
             + length (List.filter (fun r => is_archived r) l0) = length l0)%nat).
  { induction l0 as [|r l0 IH]; [reflexivity |]. simpl.
    destruct (is_archived r); simpl; lia. }
  exists s, store', l'.
  split; [exact Hsave |]. split; [exact Hwr |]. split; [exact Hts |].
  split; [congruence |]. split; [exact Hact' |].
  split; [rewrite Hact', Htotal, <- Hlen; apply Hsplit |].
  split; [rewrite Hact', Htotal, <- Hlen; specialize (Hsplit l'); lia |].
  split; [rewrite Hstars; apply sum_totals_permutation, Permutation_map, Hperm |].
  split; [rewrite Hforks; apply sum_totals_permutation, Permutation_map, Hperm |].
  split; [exact Hmost |].
  split; [rewrite Hmost, length_map, length_take, Htotal, <- Hlen; reflexivity |].
  exact Hby.
Qed.

Lemma summary_matches_array_witness :
  exists s store',
    @saveRepositoryStats SortFacts.insertion_engine "t" 1%positive
      {[ 1%positive := [MoreSamples.sample_record "a" true 1;
                         MoreSamples.sample_record "b" false 7] ]}
    = Some (s, store') /\ total_stars s = 2%Z /\ active_repos s = 1%nat.
Proof.
  destruct (@summary_matches_array SortFacts.insertion_engine "t" 1%positive
              {[ 1%positive := [MoreSamples.sample_record "a" true 1;
                                 MoreSamples.sample_record "b" false 7] ]}
              _ (lookup_singleton_eq _ _))
    as (s & store' & l' & Hsave & Hwr & _).
  exists s, store'. split; [exact Hsave |].
  unfold saveRepositoryStats in Hsave. rewrite lookup_singleton_eq in Hsave.
  injection Hsave as <- _. split; reflexivity.
Defined.

(** X13. When every record has a number for its recent activity, the ranking is
    as one expects on every engine: the array and [most_active] come out in
    descending order of recent activity, records of equal activity keep the
    order they had, and [most_active] lists the activities of the first
    five records of the array. *)
Theorem numeric_ranking_is_sorted `{SortEngine} now st (store : gmap ref (list stat)) l :
  store !! st = Some l ->
  Forall numeric l ->
  exists s store' l',
    saveRepositoryStats now st store = Some (s, store') /\
    store' !! st = Some l' /\
    descending (map recent_activity l') /\
    descending (map snd (most_active s)) /\
    map snd (most_active s) = take 5 (map recent_activity l') /\
    (length (most_active s) <= 5)%nat /\
    (forall r, In r l ->
       List.filter (same by_recent_activity r) l'
       = List.filter (same by_recent_activity r) l) /\
    (forall a b za zb, recent_activity a = Commits za -> recent_activity b = Commits zb ->
       (same by_recent_activity a b = true <-> za = zb)).
Proof.
  intros Hl Hnum.
  destruct (StatsFacts.ranking_of_numbers now st store l Hl Hnum)
    as (s & store' & Hsave & Hdesc & Hlen & Hstable & Hsnd).
  destruct (StatsFacts.save_sorts_in_place now st store l Hl)
    as (s0 & store0 & Hsave0 & _ & Hst & _).
  assert (Heq : (s0, store0) = (s, store')) by congruence.
  injection Heq as -> ->.
  exists s, store', (Array_sort by_recent_activity l).
  split; [exact Hsave |]. split; [exact Hst |].
  split; [apply (Hdesc 0%Z) |]. split; [apply (Hdesc 0%Z) |].
  split; [exact Hsnd |]. split; [exact Hlen |]. split; [exact Hstable |].
  intros a b za zb Ha Hb. unfold same.
  rewrite (StatsFacts.by_recent_activity_numeric a b za zb Ha Hb).
  destruct (Z.compare_spec zb za); split; intros; try discriminate;
    try reflexivity; lia.
Qed.

Lemma numeric_ranking_is_sorted_witness :
  exists s store',
    @saveRepositoryStats SortFacts.insertion_engine "t" 1%positive
      {[ 1%positive := [MoreSamples.sample_record "a" false 1;
                         MoreSamples.sample_record "b" false 7] ]}
    = Some (s, store') /\ descending (map snd (most_active s)).
Proof.
  destruct (@numeric_ranking_is_sorted SortFacts.insertion_engine "t" 1%positive
              {[ 1%positive := [MoreSamples.sample_record "a" false 1;
                                 MoreSamples.sample_record "b" false 7] ]}
              _ (lookup_singleton_eq _ _))
    as (s & store' & l' & Hsave & _ & _ & Hd & _).
  - repeat constructor; eexists; reflexivity.
  - exists s, store'. split; [exact Hsave | exact Hd].
Defined.

(** X14. The language tally of any array whose language names are no inherited
    members of the tally object: a language has an entry exactly when some
    record carries it, the entry is the number of those records, a record
    whose language is empty is counted nowhere, and the entries add up to
    the number of records with a language. *)
Theorem tally_counts_each_language `{SortEngine} now st (store : gmap ref (list stat)) l :
  store !! st = Some l ->
  Forall (fun r => language r ∉ Object_prototype) l ->
  exists s store',
    saveRepositoryStats now st store = Some (s, store') /\
    (forall k, by_language s !! k
               = if truthy k then counted (occurrences k l) else None) /\
    (forall k, is_Some (by_language s !! k) <->
               truthy k = true /\ exists r, In r l /\ language r = k) /\
    sum_by_language (by_language s)
    = Number (length (List.filter (fun r => truthy (language r)) l)) /\
    (length (List.filter (fun r => truthy (language r)) l) <= total_repos s)%nat.
Proof.
  intros Hl Hplain.
  destruct (StatsFacts.save_sorts_in_place now st store l Hl)
    as (s & store' & Hsave & _ & _ & _ & Hperm & _ & Htotal & Hby & _).
  assert (Hplain' : Forall (fun r => language r ∉ Object_prototype)
                      (Array_sort by_recent_activity l)).
  { rewrite List.Forall_forall in Hplain |- *. intros r Hr. apply Hplain.
    apply (Permutation_in r (Permutation_sym Hperm) Hr). }
  destruct (StatsFacts.tally_languages_spec _ Hplain') as [Hlook Hsum].
  assert (Hlook' : forall k, by_language s !! k
                     = if truthy k then counted (occurrences k l) else None).
  { intros k. rewrite Hby, Hlook, <- (StatsFacts.occurrences_permutation k _ _ Hperm).
    reflexivity. }
  exists s, store'. split; [exact Hsave |]. split; [exact Hlook' |]. split; [| split].
  - intros k. rewrite Hlook'. unfold counted, occurrences.
    destruct (truthy k); [| split; [intros [? ?]; discriminate | intros [? _]; discriminate]].
    split.
    + intros Hsome. split; [reflexivity |].
      destruct (List.filter (fun r => String.eqb (language r) k) l) as [|r rest] eqn:Hf.
      * simpl in Hsome. destruct Hsome; discriminate.
      * assert (Hin : In r (List.filter (fun r => String.eqb (language r) k) l))
          by (rewrite Hf; left; reflexivity).
        apply filter_In in Hin as [Hin Heq]. apply String.eqb_eq in Heq. eauto.
    + intros [_ (r & Hin & Heq)].
      assert (Hin' : In r (List.filter (fun r => String.eqb (language r) k) l)).
      { apply filter_In. split; [exact Hin | apply String.eqb_eq, Heq]. }
      destruct (List.filter (fun r => String.eqb (language r) k) l); [contradiction |].
      simpl. eauto.
  - rewrite Hby, Hsum, <- (StatsFacts.truthy_count_permutation _ _ Hperm). reflexivity.
  - rewrite Htotal. apply List.filter_length_le.
Qed.

Lemma tally_counts_each_language_witness :
  exists s store',
    @saveRepositoryStats SortFacts.insertion_engine "t" 1%positive
      {[ 1%positive := [MoreSamples.sample_record "a" false 1;
                         MoreSamples.sample_record "b" false 7] ]}
    = Some (s, store') /\ by_language s !! "Rocq" = Some (Number 2).
Proof.
  destruct (@tally_counts_each_language SortFacts.insertion_engine "t" 1%positive
              {[ 1%positive := [MoreSamples.sample_record "a" false 1;
                                 MoreSamples.sample_record "b" false 7] ]}
              _ (lookup_singleton_eq _ _))
    as (s & store' & Hsave & Hlook & _).
  - repeat constructor; apply (bool_decide_unpack _); vm_compute; exact I.
  - exists s, store'. split; [exact Hsave |]. rewrite Hlook. reflexivity.
Defined.

End SummaryFacts.

(* ===================================================================== *)
(** * Further properties of the lifecycle manager *)
(* ===================================================================== *)

Module LifecycleMore.
Import GitHub Lifecycle Text.

(** ** Closing stale issues, whatever the client answers *)

(** The loop works through the stale issues in order and stops at the
    first call that is rejected: [k] issues are done, and [extra] is the
    comment that went through when its closing was rejected. *)
Lemma close_each_shape o owner repo d : forall stale closed done,
  exists k extra,
    (k <= length stale)%nat /\
    (close_each o owner repo d stale closed done).1
    = done ++ flat_map (closing_calls owner repo d) (take k stale) ++ extra /\
    ((k = length stale /\ extra = [] /\
      (close_each o owner repo d stale closed done).2
      = inr (closed ++ map (fun i => (number i, title i)) stale)) \/
     (exists i msg,
        stale !! k = Some i /\
        (close_each o owner repo d stale closed done).2 = inl msg /\
        ((extra = [] /\
          rejects o (createComment owner repo (number i) (closing_comment d)) = Some msg) \/
         (extra = [createComment owner repo (number i) (closing_comment d)] /\
          rejects o (createComment owner repo (number i) (closing_comment d)) = None /\
          rejects o (update owner repo (number i) "closed" "not_planned") = Some msg)))).
Proof.
  induction stale as [|i stale IH]; intros closed done.
  - exists 0%nat, []. simpl. rewrite !app_nil_r. split; [lia |].
    split; [reflexivity |]. left. auto.
  - simpl close_each.
    destruct (rejects o (createComment owner repo (number i) (closing_comment d)))
      as [msg|] eqn:Hc.
    { exists 0%nat, []. simpl. rewrite app_nil_r. split; [lia |].
      split; [reflexivity |]. right. exists i, msg. auto. }
    destruct (rejects o (update owner repo (number i) "closed" "not_planned"))
      as [msg|] eqn:Hu.
    { exists 0%nat, [createComment owner repo (number i) (closing_comment d)].
      simpl. split; [lia |]. split; [reflexivity |].
      right. exists i, msg. split; [reflexivity |]. split; [reflexivity |].
      right. auto. }
    destruct (IH (closed ++ [(number i, title i)])
                 (done ++ [createComment owner repo (number i) (closing_comment d);
                           update owner repo (number i) "closed" "not_planned"]))
      as (k & extra & Hk & Hlog & Hres).
    exists (S k), extra. split; [simpl; lia |]. split.
    + rewrite Hlog. simpl. rewrite <- !app_assoc. reflexivity.
    + destruct Hres as [(-> & -> & Hr) | (j & msg & Hj & Hr & Hcase)].
      * left. split; [reflexivity |]. split; [reflexivity |].
        rewrite Hr. simpl. rewrite <- app_assoc. reflexivity.
      * right. exists j, msg. split; [exact Hj |]. split; [exact Hr | exact Hcase].
Qed.

(** The calls of closeStaleIssues on a listing [data]: the two calls for
    each of the first [k] stale issues and then [extra], which is empty or
    the comment on the next stale issue. *)
Lemma stale_log_shape o now owner repo d data :
  listForRepo o owner repo 100 = inr data ->
  exists k extra,
    (closeStaleIssues o now owner repo d).1
    = flat_map (closing_calls owner repo d)
        (take k (List.filter (is_stale (cutoffDate now d)) data)) ++ extra /\
    (extra = [] \/
     exists i, In i (List.filter (is_stale (cutoffDate now d)) data) /\
       extra = [createComment owner repo (number i) (closing_comment d)]).
Proof.
  intros Hlist.
  destruct (close_each_shape o owner repo d
              (List.filter (is_stale (cutoffDate now d)) data) [] [])
    as (k & extra & _ & Hlog & Hres).
  exists k, extra. split.
  - unfold closeStaleIssues. rewrite Hlist.
    destruct (close_each o owner repo d
                (List.filter (is_stale (cutoffDate now d)) data) [] [])
      as [done [msg | closed]]; exact Hlog.
  - destruct Hres as [(_ & -> & _) | (i & msg & Hi & _ & [[-> _] | [-> _]])]; auto.
    right. exists i. split; [| reflexivity].
    apply list_elem_of_In, list_elem_of_lookup. eauto.
Qed.



(** X16. Whatever the client answers, closeStaleIssues only comments on and
    closes issues of the listing that are stale: no pull request, no issue
    updated at or after the cut-off, no issue whose date does not parse is
    touched, no label is added, and an issue is never closed without the
    comment having gone through before. *)
Theorem only_stale_issues_are_touched o now owner repo d data :
  listForRepo o owner repo 100 = inr data ->
  let log := (closeStaleIssues o now owner repo d).1 in
  (forall c, In c log ->
     exists i t, In i data /\ pull_request i = false /\
       updated_at i = Some t /\ (t < now - d * day_ms)%Z /\
       (c = createComment owner repo (number i) (closing_comment d) \/
        c = update owner repo (number i) "closed" "not_planned")) /\
  (forall pre n st reason post,
     log = pre ++ update owner repo n st reason :: post ->
     exists pre', pre = pre' ++ [createComment owner repo n (closing_comment d)]).
Proof.
  intros Hlist log.
  destruct (stale_log_shape o now owner repo d data Hlist)
    as (k & extra & Hlog & Hextra).
  fold log in Hlog.
  set (stale := List.filter (is_stale (cutoffDate now d)) data) in *.
  assert (Hstale : forall i, In i stale ->
            exists t, In i data /\ pull_request i = false /\
                      updated_at i = Some t /\ (t < now - d * day_ms)%Z).
  { intros i Hi. apply filter_In in Hi as [Hin Hs].
    apply LifecycleFacts.is_stale_spec in Hs as (Hp & t & Ht & Hlt).
    exists t. unfold cutoffDate in Hlt. auto. }
  split.
  - intros c Hc. rewrite Hlog in Hc. apply in_app_iff in Hc as [Hc | Hc].
    + apply in_flat_map in Hc as (i & Hi & Hc).
      destruct (Hstale i (StatsFacts.In_take i k stale Hi)) as (t & H1 & H2 & H3 & H4).
      exists i, t. repeat split; try assumption.
      destruct Hc as [<- | [<- | []]]; auto.
    + destruct Hextra as [-> | (i & Hi & ->)]; [contradiction |].
      destruct Hc as [<- | []].
      destruct (Hstale i Hi) as (t & H1 & H2 & H3 & H4).
      exists i, t. repeat split; auto.
  - rewrite Hlog. clear Hlog Hstale.
    assert (Hgen : forall l pre n st reason post,
              flat_map (closing_calls owner repo d) l ++ extra
              = pre ++ update owner repo n st reason :: post ->
              exists pre', pre = pre' ++ [createComment owner repo n (closing_comment d)]).
    { induction l as [|i l IH]; intros pre n st reason post Heq.
      - simpl in Heq. destruct Hextra as [-> | (i & _ & ->)].
        + destruct pre; discriminate.
        + destruct pre as [|c [|c' pre]]; discriminate.
      - simpl in Heq. destruct pre as [|c0 [|c1 pre]].
        + discriminate.
        + inversion Heq; subst. exists []. reflexivity.
        + inversion Heq as [[Hc0 Hc1 Hrest]]. subst c0 c1.
          destruct (IH pre n st reason post Hrest) as [pre' ->].
          eexists (_ :: _ :: pre'). reflexivity. }
    intros pre n st reason post. apply Hgen.
Qed.

Lemma only_stale_issues_are_touched_witness :
  ~ In (update "octocat" "hello" 1 "closed" "not_planned")
       (closeStaleIssues
          (MoreSamples.rejecting_octokit (Samples.three_issues 1700000000000) 3)
          1700000000000 "octocat" "hello" 30).1.
Proof.
  intros Hc.
  destruct (proj1 (only_stale_issues_are_touched
              (MoreSamples.rejecting_octokit (Samples.three_issues 1700000000000) 3)
              1700000000000 "octocat" "hello" 30
              (Samples.three_issues 1700000000000) eq_refl) _ Hc)
    as (i & t & Hi & _ & Ht & Hlt & Hcase).
  destruct Hcase as [Hcase | Hcase]; [discriminate |].
  injection Hcase as Hn.
  destruct Hi as [<- | [<- | [<- | []]]]; simpl in Hn, Ht; try discriminate.
  injection Ht as <-. unfold day_ms in Hlt. lia.
Defined.



(** ** Labelling, whatever the client answers *)

Lemma label_calls_some owner repo i :
  (0 <? length (matchedLabels i))%nat = true ->
  label_calls owner repo i = [addLabels owner repo (number i) (matchedLabels i)].
Proof. intros H. unfold label_calls. rewrite H. reflexivity. Qed.

Lemma label_calls_none owner repo i :
  (0 <? length (matchedLabels i))%nat = false -> label_calls owner repo i = [].
Proof. intros H. unfold label_calls. rewrite H. reflexivity. Qed.

Lemma label_each_shape o owner repo : forall data labeled done,
  exists k,
    (k <= length data)%nat /\
    (label_each o owner repo data labeled done).1
    = done ++ flat_map (label_calls owner repo) (take k data) /\
    ((k = length data /\
      (label_each o owner repo data labeled done).2
      = inr (labeled + length (flat_map (label_calls owner repo) data))%nat) \/
     (exists msg, (k < length data)%nat /\
        (label_each o owner repo data labeled done).2 = inl msg)).
Proof.
  induction data as [|i data IH]; intros labeled done.
  - exists 0%nat. simpl. rewrite app_nil_r, Nat.add_0_r.
    split; [lia |]. split; [reflexivity |]. left. auto.
  - cbn [label_each].
    destruct (0 <? length (matchedLabels i))%nat eqn:Hm.
    + destruct (rejects o (addLabels owner repo (number i) (matchedLabels i)))
        as [msg|] eqn:Hr.
      * exists 0%nat. cbn [take flat_map fst snd length]. rewrite app_nil_r.
        split; [lia |]. split; [reflexivity |].
        right. exists msg. split; [lia | reflexivity].
      * destruct (IH (S labeled)
                     (done ++ [addLabels owner repo (number i) (matchedLabels i)]))
          as (k & Hk & Hlog & Hres).
        exists (S k). cbn [take flat_map length].
        rewrite (label_calls_some owner repo i Hm).
        split; [lia |]. split.
        -- rewrite Hlog, <- app_assoc. reflexivity.
        -- destruct Hres as [(-> & Hres) | (msg & Hlt & Hres)].
           ++ left. split; [reflexivity |]. rewrite Hres.
              cbn [app length]. f_equal. lia.
           ++ right. exists msg. split; [lia | exact Hres].
    + destruct (IH labeled done) as (k & Hk & Hlog & Hres).
      exists (S k). cbn [take flat_map length].
      rewrite (label_calls_none owner repo i Hm). cbn [app].
      split; [lia |]. split; [exact Hlog |].
      destruct Hres as [(-> & Hres) | (msg & Hlt & Hres)].
      * left. split; [reflexivity | exact Hres].
      * right. exists msg. split; [lia | exact Hres].
Qed.

Lemma matchedLabels_sublist i : sublist (matchedLabels i) (map fst labelRules).
Proof.
  unfold matchedLabels. apply fmap_sublist.
  induction labelRules as [|r rules IH]; [constructor |].
  simpl. destruct (test r.2 (labelled_text i)); constructor; exact IH.
Qed.

(** X18. autoLabelIssues on a listing [data], with a client that may reject any
    call.  Each call adds labels to an issue of the listing, never an empty
    list of them: the labels are those matched for the issue, taken from
    the five of the rules, in the order of the rules and without
    repetition.  No issue gets more than one call, in the order of the
    listing.  A report counts the issues of the listing as processed and
    the calls made as labeled, never more than processed. *)
Theorem labels_come_from_the_rules o owner repo data :
  listForRepo o owner repo 50 = inr data ->
  let run := autoLabelIssues o owner repo in
  (exists k, (k <= length data)%nat /\
     run.1 = flat_map (label_calls owner repo) (take k data)) /\
  (forall c, In c (run.1) ->
     exists i, In i data /\
       c = addLabels owner repo (number i) (matchedLabels i) /\
       matchedLabels i <> [] /\
       sublist (matchedLabels i)
         ["bug"; "feature"; "documentation"; "question"; "good first issue"] /\
       List.NoDup (matchedLabels i)) /\
  (forall r processed labeled,
     run.2 = LabelReport r processed labeled ->
     r = repo /\ processed = length data /\ labeled = length (run.1) /\
     (labeled <= processed)%nat).
Proof.
  intros Hlist run.
  destruct (label_each_shape o owner repo data 0%nat []) as (k & Hk & Hlog & Hres).
  assert (Hrun1 : run.1 = flat_map (label_calls owner repo) (take k data)).
  { unfold run, autoLabelIssues. rewrite Hlist.
    destruct (label_each o owner repo data 0 []) as [done [msg | n]];
      cbn [fst snd] in *; exact Hlog. }
  assert (Hone : forall l : list issue,
            (length (flat_map (label_calls owner repo) l) <= length l)%nat).
  { induction l as [|i l IH]; [simpl; lia |]. simpl. rewrite length_app.
    unfold label_calls at 1. destruct (0 <? length (matchedLabels i))%nat; simpl; lia. }
  split; [exists k; auto |]. split.
  - intros c Hc. rewrite Hrun1 in Hc. apply in_flat_map in Hc as (i & Hi & Hc).
    exists i. split; [apply (StatsFacts.In_take i k data Hi) |].
    unfold label_calls in Hc.
    destruct (0 <? length (matchedLabels i))%nat eqn:Hm; [| contradiction].
    destruct Hc as [<- | []]. split; [reflexivity |].
    split; [intros Hnil; rewrite Hnil in Hm; discriminate |].
    pose proof (matchedLabels_sublist i) as Hsub. split; [exact Hsub |].
    apply NoDup_ListNoDup. refine (sublist_NoDup _ _ _ Hsub).
    apply NoDup_ListNoDup. repeat constructor; simpl; intuition discriminate.
  - intros r processed labeled Hrep.
    rewrite Hrun1. clear Hrun1.
    unfold run, autoLabelIssues in Hrep. rewrite Hlist in Hrep.
    destruct (label_each o owner repo data 0 []) as [done [msg | n]];
      cbn [fst snd] in *; [discriminate |].
    injection Hrep as <- <- <-.
    destruct Hres as [(-> & Hres) | (msg & _ & Hres)]; [| discriminate].
    injection Hres as ->. rewrite firstn_all. simpl.
    split; [reflexivity |]. split; [reflexivity |].
    split; [reflexivity | apply Hone].
Qed.

Lemma labels_come_from_the_rules_witness :
  exists i,
    In i [Issue 7 "App crashes on startup" None None false;
          Issue 8 "Nothing to see" None None false] /\
    addLabels "octocat" "hello" 7 ["bug"]
    = addLabels "octocat" "hello" (number i) (matchedLabels i).
Proof.
  destruct (proj1 (proj2 (labels_come_from_the_rules
              (MoreSamples.rejecting_octokit
                 [Issue 7 "App crashes on startup" None None false;
                  Issue 8 "Nothing to see" None None false] 9)
              "octocat" "hello" _ eq_refl))
              (addLabels "octocat" "hello" 7 ["bug"]) (or_introl eq_refl))
    as (i & Hi & Heq & _).
  exists i. split; [exact Hi | exact Heq].
Defined.

End LifecycleMore.

(* ===================================================================== *)
(** * What the keyword patterns match *)
(* ===================================================================== *)

Module MatchingFacts.
Import GitHub Lifecycle Text.

Lemma same_char_spec ic a b :
  same_char ic a b = true <-> if ic then to_lower a = to_lower b else a = b.
Proof. unfold same_char. destruct ic; apply Ascii.eqb_eq. Qed.

Lemma matches_here_spec ic pat : forall s,
  matches_here ic pat s = true <->
  exists mid post, s = String.append mid post /\ spells ic pat mid.
Proof.
  induction pat as [|p pat IH]; intros s.
  - simpl. split; [intros _ | reflexivity].
    exists EmptyString, s. split; [reflexivity |]. destruct ic; reflexivity.
  - destruct s as [|c s]; simpl.
    + split; [discriminate |]. intros (mid & post & Heq & Hsp).
      destruct mid; [| discriminate]. destruct ic; discriminate.
    + rewrite andb_true_iff, same_char_spec, IH. split.
      * intros (Hc & mid & post & -> & Hsp).
        exists (String c mid), post. split; [reflexivity |].
        destruct ic; simpl in *; congruence.
      * intros (mid & post & Heq & Hsp).
        destruct mid as [|c' mid]; [destruct ic; discriminate |].
        simpl in Heq. injection Heq as <- ->.
        destruct ic; simpl in Hsp; injection Hsp as Hc Hm.
        -- split; [congruence |]. exists mid, post. split; [reflexivity | exact Hm].
        -- split; [congruence |]. exists mid, post. split; [reflexivity | exact Hm].
Qed.

Lemma occurs_spec ic pat : forall s,
  occurs ic pat s = true <->
  exists pre mid post,
    s = String.append pre (String.append mid post) /\ spells ic pat mid.
Proof.
  induction s as [|c s IH].
  - simpl. rewrite orb_false_r, matches_here_spec. split.
    + intros (mid & post & Heq & Hsp). exists EmptyString, mid, post. auto.
    + intros (pre & mid & post & Heq & Hsp).
      destruct pre; [| discriminate]. exists mid, post. auto.
  - change (occurs ic pat (String c s))
      with (matches_here ic pat (String c s) || occurs ic pat s).
    rewrite orb_true_iff, matches_here_spec, IH. split.
    + intros [(mid & post & Heq & Hsp) | (pre & mid & post & -> & Hsp)].
      * exists EmptyString, mid, post. auto.
      * exists (String c pre), mid, post. auto.
    + intros (pre & mid & post & Heq & Hsp). destruct pre as [|c' pre].
      * left. exists mid, post. auto.
      * right. simpl in Heq. injection Heq as <- ->. exists pre, mid, post. auto.
Qed.

(** X19. A label is given to an issue exactly when one of the words of its
    rule occurs somewhere in the text made of the title, a blank and the
    body (nothing for a body that is null), as a run of characters that
    spells the word up to the case of ASCII letters; it need not stand as a
    word of its own.  An occurrence in the title, or in the body, is
    therefore enough. *)
Theorem label_matches_any_occurrence i label :
  (In label (matchedLabels i) <->
   exists re w pre mid post,
     In (label, re) labelRules /\ In w (alternatives re) /\
     String.append (title i)
       (String.append " " (match body i with Some b => b | None => "" end))
     = String.append pre (String.append mid post) /\
     lower_text mid = lower_text w) /\
  (forall re w pre mid post,
     In (label, re) labelRules -> In w (alternatives re) ->
     lower_text mid = lower_text w ->
     title i = String.append pre (String.append mid post) ->
     In label (matchedLabels i)) /\
  (forall re w pre mid post,
     In (label, re) labelRules -> In w (alternatives re) ->
     lower_text mid = lower_text w ->
     body i = Some (String.append pre (String.append mid post)) ->
     In label (matchedLabels i)).
Proof.
  assert (Htext : labelled_text i
                  = String.append (title i)
                      (String.append " "
                         (match body i with Some b => b | None => "" end))).
  { unfold labelled_text. destruct (body i); reflexivity. }
  assert (Hic : forall re, In (label, re) labelRules -> ignoreCase re = true).
  { intros re Hin. simpl in Hin.
    destruct Hin as [H | [H | [H | [H | [H | []]]]]]; injection H as _ <-; reflexivity. }
  assert (Hassoc : forall a b c, String.append (String.append a b) c
                                 = String.append a (String.append b c)).
  { induction a as [|x a IH]; intros b c; [reflexivity |].
    change (String x (String.append (String.append a b) c)
            = String x (String.append a (String.append b c))).
    rewrite IH. reflexivity. }
  assert (Hiff : In label (matchedLabels i) <->
            exists re w pre mid post,
              In (label, re) labelRules /\ In w (alternatives re) /\
              String.append (title i)
                (String.append " " (match body i with Some b => b | None => "" end))
              = String.append pre (String.append mid post) /\
              lower_text mid = lower_text w).
  { rewrite <- Htext, LifecycleFacts.In_matchedLabels. split.
    - intros (re & Hin & Ht). unfold test in Ht.
      apply existsb_exists in Ht as (w & Hw & Ho).
      apply occurs_spec in Ho as (pre & mid & post & Heq & Hsp).
      exists re, w, pre, mid, post. repeat split; try assumption.
      rewrite (Hic re Hin) in Hsp. exact Hsp.
    - intros (re & w & pre & mid & post & Hin & Hw & Heq & Hsp).
      exists re. split; [exact Hin |]. unfold test. apply existsb_exists.
      exists w. split; [exact Hw |]. apply occurs_spec.
      exists pre, mid, post. split; [exact Heq |].
      rewrite (Hic re Hin). exact Hsp. }
  split; [exact Hiff |]. split.
  - intros re w pre mid post Hin Hw Hsp Ht. apply Hiff.
    exists re, w, pre, mid,
      (String.append post
         (String.append " " (match body i with Some b => b | None => "" end))).
    split; [exact Hin |]. split; [exact Hw |]. split; [| exact Hsp].
    rewrite Ht, !Hassoc. reflexivity.
  - intros re w pre mid post Hin Hw Hsp Hb. apply Hiff.
    exists re, w, (String.append (title i) (String.append " " pre)), mid, post.
    split; [exact Hin |]. split; [exact Hw |]. split; [| exact Hsp].
    rewrite Hb, !Hassoc. reflexivity.
Qed.

Lemma label_matches_any_occurrence_witness :
  In "bug" (matchedLabels (Issue 9 "Startup" (Some "the app CRASHES") None false)).
Proof.
  apply (proj2 (proj2 (label_matches_any_occurrence
                         (Issue 9 "Startup" (Some "the app CRASHES") None false) "bug"))
           (Regex ["bug"; "error"; "crash"; "fail"] true)
           "crash" "the app " "CRASH" "ES").
  - simpl. left. reflexivity.
  - simpl. right. right. left. reflexivity.
  - reflexivity.
  - reflexivity.
Defined.






End MatchingFacts.

(* ===================================================================== *)
(** * Further properties of the health report *)
(* ===================================================================== *)

Module HealthMore.
Import Health.

(** X21. Whatever the linters found, the report never recommends to fix linting
    errors: its recommendations are taken, in this order, from the critical,
    the high and the archive message.  The score is 85 on every input, and
    the linter and vulnerability results are passed on as they came. *)
Theorem linting_is_never_recommended now lint vuln stats :
  let rep := generateHealthReport now lint vuln stats in
  ~ In MEDIUM (recommendations rep) /\
  sublist (recommendations rep) [CRITICAL; HIGH; ARCHIVE] /\
  overall_score (health rep) = 85%Z /\
  code_quality rep = lint /\ security rep = vuln /\
  report_timestamp rep = now.
Proof.
  intros rep. unfold rep, generateHealthReport.
  cbn [recommendations health overall_score code_quality security report_timestamp].
  rewrite HealthFacts.some_failed_never. cbn [when app].
  split; [| split; [| repeat split]].
  - rewrite !in_app_iff, !HealthFacts.In_when.
    intros [[_ H] | [[_ H] | [_ H]]]; discriminate.
  - destruct (0 <? critical vuln)%Z, (0 <? high vuln)%Z,
      (5 <? Z.of_nat (Stats.total_repos stats)
            - Z.of_nat (Stats.active_repos stats))%Z; simpl;
      repeat first [apply sublist_nil | apply sublist_skip; fail | constructor].
Qed.

(** X22. The report made from the summary of saveRepositoryStats: the archive
    message is given exactly when more than five records of the array are
    archived, and the report shows the number of records that are not
    archived and the sum of the stars. *)
Theorem archive_message_counts_archived `{Stats.SortEngine} now t st
    (store : gmap Stats.ref (list Stats.stat)) l lint vuln :
  store !! st = Some l ->
  exists s store',
    Stats.saveRepositoryStats t st store = Some (s, store') /\
    let rep := generateHealthReport now lint vuln s in
    (In ARCHIVE (recommendations rep) <->
     (5 < length (List.filter (fun r => Stats.is_archived r) l))%nat) /\
    health_repositories (health rep)
    = length (List.filter (fun r => negb (Stats.is_archived r)) l) /\
    health_total_stars (health rep) = Stats.sum_totals (map Stats.stars l).
Proof.
  intros Hl. unfold Stats.saveRepositoryStats. rewrite Hl.
  eexists _, _. split; [reflexivity |]. cbv zeta.
  unfold generateHealthReport.
  cbn [recommendations health health_repositories health_total_stars
       Stats.total_repos Stats.active_repos Stats.total_stars].
  rewrite HealthFacts.some_failed_never. cbn [when app].
  split; [| split].
  - rewrite !in_app_iff, !HealthFacts.In_when, Z.ltb_lt.
    assert (Hsplit : (length (List.filter (fun r => negb (Stats.is_archived r)) l)
                      + length (List.filter (fun r => Stats.is_archived r) l)
                      = length l)%nat).
    { clear. induction l as [|r l IH]; [reflexivity |]. simpl.
      destruct (Stats.is_archived r); simpl; lia. }
    split.
    + intros [[_ Hx] | [[_ Hx] | [Hx _]]]; try discriminate. lia.
    + intros Hgt. right. right. split; [lia | reflexivity].
  - reflexivity.
  - rewrite SummaryFacts.fold_left_sum. lia.
Qed.

Lemma archive_message_counts_archived_witness :
  exists s store',
    @Stats.saveRepositoryStats SortFacts.insertion_engine "t" 1%positive
      {[ 1%positive := [MoreSamples.sample_record "a" true 1;
                         MoreSamples.sample_record "b" false 7] ]}
    = Some (s, store') /\
    ~ In ARCHIVE (recommendations
                    (generateHealthReport "t" (LintResults [] 0 0 0)
                       (SeverityTally 0 0 0 0) s)).
Proof.
  destruct (@archive_message_counts_archived SortFacts.insertion_engine
              "t" "t" 1%positive
              {[ 1%positive := [MoreSamples.sample_record "a" true 1;
                                 MoreSamples.sample_record "b" false 7] ]}
              _ (LintResults [] 0 0 0) (SeverityTally 0 0 0 0)
              (lookup_singleton_eq _ _))
    as (s & store' & Hsave & Harch & _).
  exists s, store'. split; [exact Hsave |].
  intros Hin. apply Harch in Hin. simpl in Hin. lia.
Defined.

End HealthMore.

(* ===================================================================== *)
(** * Properties of a whole run *)
(* ===================================================================== *)

Module MaintenanceFacts.
Import GitHub Stats Lifecycle Maintenance.




(** X23. When the rotation draws no category, the run fails: it returns the
    failure result without having sent a single request, fetched or saved
    any statistics or made a report, whatever the client would answer.
    The state file has been rewritten all the same, so that the next run
    starts from the cursor this one left. *)
Theorem run_fails_before_any_request `{SortEngine} (i : inputs) :
  Rotation.currentCategory
    (Rotation.rotateFactCategory (t_rotate i) (disk i)).1.1 = None ->
  exists r,
    runDailyMaintenance i = Some r /\
    result r = Failure /\
    calls r = [] /\ maintenanceResults r = [] /\
    savedStats r = None /\ healthReport r = None /\ store_after r = ∅ /\
    daily_after r = daily i /\
    disk_after r = (Rotation.rotateFactCategory (t_rotate i) (disk i)).1.2 /\
    Rotation.persisted_index (disk_after r)
    = Some (Facts.stored
              (Rotation.currentIndex
                 (Rotation.rotateFactCategory (t_rotate i) (disk i)).1.1)).
Proof.
  intros Hc.
  destruct (FactsFacts.daily_fact_outcome
              (t_rotate i) (t_date i) (t_stamp i) (draw i) (disk i) (daily i))
    as (Hdisk & _ & Hthrow).
  destruct Hthrow as (Hthrow & Hdaily & _).
  { intros (c & Hc' & _). congruence. }
  unfold runDailyMaintenance.
  destruct (Facts.updateDailyFact (t_rotate i) (t_date i) (t_stamp i) (draw i)
              (disk i) (daily i)) as [[[comp disk1] daily1] log].
  cbn [fst snd] in *. subst comp.
  eexists. split; [reflexivity |]. cbn [result calls maintenanceResults savedStats
    healthReport store_after daily_after disk_after].
  repeat split; try assumption.
  rewrite Hdisk. apply RotationMore.rotate_persists.
Qed.

Lemma run_fails_before_any_request_witness :
  exists r,
    @runDailyMaintenance SortFacts.insertion_engine
      (MoreSamples.sample_inputs
         (Rotation.Dir (Some (Rotation.Json (Rotation.JObject
            {| Rotation.doc_currentIndex := Rotation.FMissing;
               Rotation.doc_lastUpdated := None;
               Rotation.doc_currentCategory := None |})))))
    = Some r /\ result r = Failure /\ calls r = [].
Proof.
  destruct (@run_fails_before_any_request SortFacts.insertion_engine
              (MoreSamples.sample_inputs
                 (Rotation.Dir (Some (Rotation.Json (Rotation.JObject
                    {| Rotation.doc_currentIndex := Rotation.FMissing;
                       Rotation.doc_lastUpdated := None;
                       Rotation.doc_currentCategory := None |})))))
              eq_refl)
    as (r & Hr & Hres & Hcalls & _).
  exists r. auto.
Defined.



End MaintenanceFacts.
